(** * wok: the single-page pipeline of [wok/page.py]

    A shallow embedding of [Page] and [Page.Author]: header normalisation
    ([build_meta]), author parsing, template rendering and writing, with the
    Python semantics the code relies on written out (dictionary access,
    missing-attribute hook, exceptions, [str.split], [str.strip],
    [os.path.join], the backtracking regular-expression matcher). *)

From Stdlib Require Import String Ascii List ZArith Lia Bool.
From stdpp Require Import base option strings gmap.
Import ListNotations.

#[local] Set Warnings "-register-all".
#[local] Open Scope string_scope.

(* ===================================================================== *)
(** ** Exceptions and results *)
(* ===================================================================== *)

(** The exceptions the code can raise.  [RecursionError] is the "maximum
    recursion depth exceeded" error ([RuntimeError] in Python 2);
    [OSError] and [IOError] carry their [errno]. *)
Inductive errno := EEXIST | EACCES | ENOENT | ENOSPC.

Inductive exn :=
| AttributeError
| TypeError
| KeyError
| RecursionError
| OSError (e : errno)
| IOError (e : errno)
| TemplateNotFound.

Inductive result (A : Type) : Type :=
| Return (a : A)
| Raise (e : exn).
Arguments Return {A} a.
Arguments Raise {A} e.

Definition bind {A B} (r : result A) (f : A -> result B) : result B :=
  match r with
  | Return a => f a
  | Raise e => Raise e
  end.

Notation "x <- e ;; f" := (bind e (fun x => f))
  (at level 20, e at level 99, f at level 200, only parsing).

(** A statement whose value is not used (the argument of a diagnostic). *)
Notation "'discard' e ;; f" := (bind e (fun _ => f))
  (at level 20, e at level 99, f at level 200, only parsing).

(* ===================================================================== *)
(** ** Python strings *)
(* ===================================================================== *)

Module Str.

(** [s.split(sep)] for a one-character separator: always at least one
    piece, empty pieces kept. *)
Fixpoint split (sep : ascii) (s : string) : list string :=
  match s with
  | EmptyString => [EmptyString]
  | String c r =>
      if Ascii.eqb c sep then EmptyString :: split sep r
      else match split sep r with
           | h :: t => String c h :: t
           | [] => [String c EmptyString]
           end
  end.

(** [sep.join(l)]. *)
Definition join (sep : string) (l : list string) : string :=
  String.concat sep l.

Fixpoint drop (n : nat) (s : string) : string :=
  match n, s with
  | S n', String _ r => drop n' r
  | _, _ => s
  end.

(** The first occurrence of [sep] in [s]: the text before it and the text
    after it. *)
Fixpoint find (sep s : string) : option (string * string) :=
  if String.prefix sep s then Some (EmptyString, drop (String.length sep) s)
  else match s with
       | EmptyString => None
       | String c r =>
           match find sep r with
           | Some (a, b) => Some (String c a, b)
           | None => None
           end
       end.

(** [s.split(sep, 1)]: at most one split. *)
Definition split1 (sep s : string) : list string :=
  match find sep s with
  | Some (a, b) => [a; b]
  | None => [s]
  end.

(** A string of ASCII characters only (codes 0 to 127). *)
Definition is_ascii (s : string) : bool :=
  forallb (fun c => Nat.ltb (nat_of_ascii c) 128) (list_ascii_of_string s).

(** Whitespace of [str.strip()] among the ASCII characters: tab, newline,
    vertical tab, form feed, carriage return (9 to 13), the four
    separators 28 to 31, and the space (32).  [strip] also removes blanks
    outside ASCII (U+0085, U+00A0 and others), which a one-byte character
    does not express: what is proved of [strip] is stated for [is_ascii]
    strings. *)
Definition is_space (c : ascii) : bool :=
  let n := nat_of_ascii c in
  Nat.leb 9 n && Nat.leb n 13 || Nat.leb 28 n && Nat.leb n 32.

Fixpoint lstrip (s : string) : string :=
  match s with
  | EmptyString => EmptyString
  | String c r => if is_space c then lstrip r else s
  end.

Fixpoint rstrip (s : string) : string :=
  match s with
  | EmptyString => EmptyString
  | String c r =>
      match rstrip r with
      | EmptyString => if is_space c then EmptyString else String c EmptyString
      | r' => String c r'
      end
  end.

Definition strip (s : string) : string := rstrip (lstrip s).

(** [sub in s] on strings. *)
Definition contains (sub s : string) : bool :=
  match find sub s with Some _ => true | None => false end.

Fixpoint last (s : string) : option ascii :=
  match s with
  | EmptyString => None
  | String c EmptyString => Some c
  | String _ r => last r
  end.

Definition first (s : string) : option ascii :=
  match s with
  | EmptyString => None
  | String c _ => Some c
  end.

(** The characters of a string as one-character strings (iteration). *)
Fixpoint chars (s : string) : list string :=
  match s with
  | EmptyString => []
  | String c r => String c EmptyString :: chars r
  end.

End Str.

(* ===================================================================== *)
(** ** Python values *)
(* ===================================================================== *)

(** Instance state of [Page.Author]: [__init__(self, raw='', name=None,
    email=None)]. *)
Record Author := mkAuthor {
  raw : string;
  name : option string;
  email : option string
}.

(** What a header loaded by [yaml.load] and the normalised metadata can
    hold.  Dictionaries have string keys; a timestamp is a number. *)
Inductive value : Type :=
| VNone
| VBool (b : bool)
| VInt (z : Z)
| VStr (s : string)
| VList (l : list value)
| VDict (d : gmap string value)
| VAuthor (a : Author)
| VDatetime (t : Z).

Module Py.

Definition is_none (v : value) : bool :=
  match v with VNone => true | _ => false end.

(** [k in v] for a string [k]: key of a dictionary, element of a list,
    substring of a string; other values are not iterable. *)
Definition contains (k : string) (v : value) : result bool :=
  match v with
  | VDict d => Return (match d !! k with Some _ => true | None => false end)
  | VList l =>
      Return (existsb (fun x => match x with
                                | VStr s => String.eqb s k
                                | _ => false
                                end) l)
  | VStr s => Return (Str.contains k s)
  | _ => Raise TypeError
  end.

(** [v[k]] for a string [k]. *)
Definition getitem (k : string) (v : value) : result value :=
  match v with
  | VDict d => match d !! k with Some x => Return x | None => Raise KeyError end
  | _ => Raise TypeError
  end.

(** [v[k] = x] for a string [k]. *)
Definition setitem (k : string) (x : value) (v : value) : result value :=
  match v with
  | VDict d => Return (VDict (<[k := x]> d))
  | _ => Raise TypeError
  end.

(** [v.get(k, dflt)]: only dictionaries have the method. *)
Definition get (k : string) (dflt : value) (v : value) : result value :=
  match v with
  | VDict d => Return (match d !! k with Some x => x | None => dflt end)
  | _ => Raise AttributeError
  end.

(** [v.split(sep)]: only strings have the method. *)
Definition split (sep : ascii) (v : value) : result (list string) :=
  match v with
  | VStr s => Return (Str.split sep s)
  | _ => Raise AttributeError
  end.

(** [v + suffix] for a string literal [suffix]. *)
Definition add_str (v : value) (suffix : string) : result string :=
  match v with
  | VStr s => Return (s ++ suffix)
  | _ => Raise TypeError
  end.

(** [for x in v]: the elements visited.  A dictionary yields its keys. *)
Definition iter (v : value) : result (list value) :=
  match v with
  | VList l => Return l
  | VStr s => Return (map VStr (Str.chars s))
  | VDict d => Return (map (fun kv => VStr (fst kv)) (map_to_list d))
  | _ => Raise TypeError
  end.

(** A path component handed to [os.path.join] must be a string (its
    [startswith] method is called). *)
Definition as_str (v : value) : result string :=
  match v with
  | VStr s => Return s
  | _ => Raise AttributeError
  end.

End Py.

(* ===================================================================== *)
(** ** Regular expressions ([re]) *)
(* ===================================================================== *)

(** The fragment of [re] that [parse_author_regex] uses, matched the way
    [re.match] does: anchored at the start, greedy repetition tried longest
    first, backtracking through continuations, capture groups numbered by
    their opening parenthesis. *)
Module Re.

Inductive cls :=
| Dot                       (* [.]: any character but a newline *)
| Chr (c : ascii)           (* a literal character *)
| NotIn (l : list ascii).   (* [[^...]] *)

Inductive regex :=
| Lit (c : ascii)
| Star (c : cls)            (* [c*] *)
| Plus (c : cls)            (* [c+] *)
| Seq (r1 r2 : regex)
| Group (n : nat) (r : regex)
| Dollar.                   (* [$] *)

Definition newline : ascii := ascii_of_nat 10.

Definition cls_match (c : cls) (a : ascii) : bool :=
  match c with
  | Dot => negb (Ascii.eqb a newline)
  | Chr x => Ascii.eqb a x
  | NotIn l => negb (existsb (Ascii.eqb a) l)
  end.

(** Greedy [c*] followed by the continuation [k]: take one more character
    when possible, fall back to stopping here. *)
Fixpoint star {R} (c : cls) (s : string) (k : string -> option R) : option R :=
  match s with
  | EmptyString => k EmptyString
  | String a r =>
      if cls_match c a then
        match star c r k with
        | Some x => Some x
        | None => k s
        end
      else k s
  end.

(** [$] without [MULTILINE]: the end of the string, or just before a
    newline that ends it. *)
Definition at_end (s : string) : bool :=
  match s with
  | EmptyString => true
  | String a EmptyString => Ascii.eqb a newline
  | _ => false
  end.

(** The text consumed between the position [s] and the later position [s']. *)
Definition consumed (s s' : string) : string :=
  String.substring 0 (String.length s - String.length s') s.

Fixpoint run {R} (r : regex) (s : string) (caps : gmap nat string)
    (k : string -> gmap nat string -> option R) : option R :=
  match r with
  | Lit c =>
      match s with
      | String a s' => if Ascii.eqb a c then k s' caps else None
      | EmptyString => None
      end
  | Star c => star c s (fun s' => k s' caps)
  | Plus c =>
      match s with
      | String a s' => if cls_match c a then star c s' (fun s'' => k s'' caps) else None
      | EmptyString => None
      end
  | Seq r1 r2 => run r1 s caps (fun s' caps' => run r2 s' caps' k)
  | Group n r1 => run r1 s caps (fun s' caps' => k s' (<[n := consumed s s']> caps'))
  | Dollar => if at_end s then k s caps else None
  end.

(** [r.match(s)]: the captures of the first successful match, or [None]. *)
Definition match_ (r : regex) (s : string) : option (gmap nat string) :=
  run r s ∅ (fun _ caps => Some caps).

(** [m.groups()] for a pattern with three groups. *)
Definition groups3 (m : gmap nat string) : option string * option string * option string :=
  (m !! 1, m !! 2, m !! 3).

End Re.

(* ===================================================================== *)
(** ** [os.path] *)
(* ===================================================================== *)

(** [os.path] is [posixpath] or [ntpath] according to the host. *)
Inductive host := Posix | Nt.

Module OsPath.

Definition slash : ascii := "/"%char.
Definition backslash : ascii := ascii_of_nat 92.
Definition colon : ascii := ":"%char.

(** [posixpath.join(a, b)]. *)
Definition posix_join (a b : string) : string :=
  if match Str.first b with Some c => Ascii.eqb c slash | None => false end then b
  else if String.eqb a "" || match Str.last a with Some c => Ascii.eqb c slash | None => false end
       then a ++ b
       else a ++ "/" ++ b.

Definition nt_is_sep (c : ascii) : bool :=
  Ascii.eqb c slash || Ascii.eqb c backslash.

(** [p[1:2] == ':']. *)
Definition has_drive (p : string) : bool :=
  String.eqb (String.substring 1 1 p) ":".

Definition nt_splitdrive (p : string) : string * string :=
  if has_drive p then (String.substring 0 2 p, Str.drop 2 p) else ("", p).

Definition nt_isabs (p : string) : bool :=
  match Str.first (snd (nt_splitdrive p)) with
  | Some c => nt_is_sep c
  | None => false
  end.

(** [ntpath.join(path, b)], as in the Python 2 releases up to 2.7.7.
    Later releases differ on a component that carries a drive letter or
    a UNC prefix. *)
Definition nt_join (path b : string) : string :=
  let b_wins :=
    if String.eqb path "" then true
    else if nt_isabs b then
      if negb (has_drive path) || has_drive b then true
      else if Nat.ltb 3 (String.length path)
              || (Nat.eqb (String.length path) 3
                  && negb (match Str.last path with Some c => nt_is_sep c | None => false end))
           then true
           else false
    else false in
  if b_wins then b
  else match Str.last path with
       | None => b
       | Some c =>
           if nt_is_sep c then
             match Str.first b with
             | Some c' => if nt_is_sep c' then path ++ Str.drop 1 b else path ++ b
             | None => path ++ b
             end
           else if Ascii.eqb c colon then path ++ b
           else match Str.first b with
                | Some c' =>
                    if nt_is_sep c' then path ++ b
                    else path ++ String backslash b
                | None => path ++ String backslash EmptyString
                end
       end.

Definition join (h : host) (a b : string) : string :=
  match h with
  | Posix => posix_join a b
  | Nt => nt_join a b
  end.

(** Position just after the last separator: [head] is everything up to and
    including it, [tail] what follows. *)
Fixpoint cut_last (is_sep : ascii -> bool) (p : string) : string * string :=
  match p with
  | EmptyString => (EmptyString, EmptyString)
  | String c r =>
      let (hd, tl) := cut_last is_sep r in
      if String.eqb hd "" then
        if is_sep c then (String c EmptyString, tl) else (EmptyString, String c tl)
      else (String c hd, tl)
  end.

Fixpoint rstrip_sep (is_sep : ascii -> bool) (s : string) : string :=
  match s with
  | EmptyString => EmptyString
  | String c r =>
      match rstrip_sep is_sep r with
      | EmptyString => if is_sep c then EmptyString else String c EmptyString
      | r' => String c r'
      end
  end.

(** [os.path.split(p)]: trailing separators are removed from a head that
    is not made of separators only. *)
Definition split (h : host) (p : string) : string * string :=
  match h with
  | Posix =>
      let (hd, tl) := cut_last (Ascii.eqb slash) p in
      (match rstrip_sep (Ascii.eqb slash) hd with
       | EmptyString => hd
       | hd' => hd'
       end, tl)
  | Nt =>
      let (d, q) := nt_splitdrive p in
      let (hd, tl) := cut_last nt_is_sep q in
      (d ++ match rstrip_sep nt_is_sep hd with
            | EmptyString => hd
            | hd' => hd'
            end, tl)
  end.

Definition dirname (h : host) (p : string) : string := fst (split h p).

End OsPath.

(* ===================================================================== *)
(** ** [wok.util] *)
(* ===================================================================== *)

Module Util.

Definition is_lower (c : ascii) : bool :=
  let n := nat_of_ascii c in Nat.leb 97 n && Nat.leb n 122.
Definition is_upper (c : ascii) : bool :=
  let n := nat_of_ascii c in Nat.leb 65 n && Nat.leb n 90.
Definition is_digit (c : ascii) : bool :=
  let n := nat_of_ascii c in Nat.leb 48 n && Nat.leb n 57.
Definition is_alnum (c : ascii) : bool :=
  is_lower c || is_upper c || is_digit c.
Definition lower (c : ascii) : ascii :=
  if is_upper c then ascii_of_nat (nat_of_ascii c + 32) else c.

Definition dash : ascii := "-"%char.

(** Lower-case the alphanumeric characters and replace every maximal run
    of other characters by one dash; [in_run] says that the previous
    character was already replaced. *)
Fixpoint collapse (in_run : bool) (s : string) : string :=
  match s with
  | EmptyString => EmptyString
  | String c r =>
      if is_alnum c then String (lower c) (collapse false r)
      else if in_run then collapse true r
           else String dash (collapse true r)
  end.

Fixpoint ltrim (s : string) : string :=
  match s with
  | EmptyString => EmptyString
  | String c r => if Ascii.eqb c dash then ltrim r else s
  end.

Fixpoint rtrim (s : string) : string :=
  match s with
  | EmptyString => EmptyString
  | String c r =>
      match rtrim r with
      | EmptyString => if Ascii.eqb c dash then EmptyString else String c EmptyString
      | r' => String c r'
      end
  end.

Definition slugify_str (s : string) : string := rtrim (ltrim (collapse false s)).

(** Modelled from the spec: [util.slugify] ([wok/util.py] is not among the
    sources).  The spec gives it on strings: "lowercase, non-alphanumeric
    runs collapsed to [-], leading/trailing [-] trimmed".  It says nothing
    of other arguments; the model rejects them with a [TypeError]. *)
Definition slugify (v : value) : result value :=
  match v with
  | VStr s => Return (VStr (slugify_str s))
  | _ => Raise TypeError
  end.

End Util.

(** The set of strings of [^[a-z0-9-]*$], read as a match of the whole
    string. *)
Definition slug_char (c : ascii) : bool :=
  Util.is_lower c || Util.is_digit c || Ascii.eqb c Util.dash.

Definition slug_re (s : string) : bool :=
  forallb slug_char (list_ascii_of_string s).

(* ===================================================================== *)
(** ** [class Page] *)
(* ===================================================================== *)

(** Instance state of a [Page].  [meta] and [html] are [None] while the
    attribute has not been assigned; [__init__] assigns neither [meta]
    (unless a header was found) nor [html].  The renderer and the template
    environment are external and are passed to the methods that call them. *)
Record Page := mkPage {
  path : string;
  filename : string;
  options : gmap string value;
  original : string;
  meta : option value;
  content : option string;
  html : option string
}.

Definition set_meta (m : value) (p : Page) : Page :=
  mkPage (path p) (filename p) (options p) (original p) (Some m) (content p) (html p).
Definition set_content (c : string) (p : Page) : Page :=
  mkPage (path p) (filename p) (options p) (original p) (meta p) (Some c) (html p).
Definition set_html (x : string) (p : Page) : Page :=
  mkPage (path p) (filename p) (options p) (original p) (meta p) (content p) (Some x).

(** What a template variable can hold: a plain value or a page. *)
Inductive tvalue :=
| TVal (v : value)
| TPage (p : Page).

(** The file-system calls of [write], over a state [S] of the disk. *)
Record os_ops (S : Type) := mkOs {
  makedirs : string -> S -> result unit * S;
  open_w : string -> S -> result unit * S;
  file_write : string -> string -> S -> result unit * S
}.
Arguments makedirs {S}.
Arguments open_w {S}.
Arguments file_write {S}.

(** [for x in l: body]. *)
Fixpoint for_each {A St} (l : list A) (body : A -> St -> result St) (s : St) : result St :=
  match l with
  | [] => Return s
  | x :: r => s' <- body x s;; for_each r body s'
  end.

Module Page.

Module Author.

(** [parse_author_regex]: group 1 is any run of characters other than
    [<] and [>]; group 2 is one or more spaces, [<], group 3 and [>];
    group 3 is any run of characters, [@], any run of characters; then the
    end of the string. *)
Definition parse_author_regex : Re.regex :=
  Re.Seq (Re.Group 1 (Re.Star (Re.NotIn ["<"%char; ">"%char])))
    (Re.Seq
       (Re.Group 2
          (Re.Seq (Re.Plus (Re.Chr " "%char))
             (Re.Seq (Re.Lit "<"%char)
                (Re.Seq
                   (Re.Group 3
                      (Re.Seq (Re.Star Re.Dot)
                         (Re.Seq (Re.Lit "@"%char) (Re.Star Re.Dot))))
                   (Re.Lit ">"%char)))))
       Re.Dollar).

(** The local object [a] of [parse] after its two statements:
    [a = cls(raw)], then [a.name, _, a.email = regex.match(raw).groups()].
    A failed match is [None], whose [groups] attribute does not exist. *)
Definition parse_local (r : value) : result Author :=
  match r with
  | VStr s =>
      let a := mkAuthor s None None in
      match Re.match_ parse_author_regex s with
      | None => Raise AttributeError
      | Some m =>
          let '(g1, _, g3) := Re.groups3 m in
          Return (mkAuthor (raw a) g1 g3)
      end
  | _ => Raise TypeError
  end.

(** [parse(cls, raw)]: the body ends without a [return] statement, so the
    call evaluates to [None]. *)
Definition parse (r : value) : result value :=
  discard parse_local r;;
  Return VNone.

(** Python truth of an optional string: [None] and [''] are false. *)
Definition truthy (o : option string) : bool :=
  match o with
  | Some (String _ _) => true
  | _ => false
  end.

Definition __str__ (self : Author) : string :=
  if negb (truthy (name self)) then raw self
  else if negb (truthy (email self)) then default "" (name self)
  else default "" (name self) ++ " <" ++ default "" (email self) ++ ">".

(** [Page.Author()]. *)
Definition empty : Author := mkAuthor "" None None.

End Author.

(** Body of [__getattr__] once [self.meta] has evaluated to [m]:
    [if name in self.meta: return self.meta[name]], else [None]. *)
Definition lookup_meta (m : value) (name : string) : result value :=
  b <- Py.contains name m;;
  if b then Py.getitem name m else Return VNone.

(** [__getattr__(self, name)], called for an attribute that is not set.
    While [meta] itself is not set, the [self.meta] in its body calls it
    again; [depth] is the interpreter's recursion limit. *)
Fixpoint __getattr__ (depth : nat) (self : Page) (name : string) {struct depth}
    : result value :=
  match meta self with
  | Some m => lookup_meta m name
  | None =>
      match depth with
      | O => Raise RecursionError
      | S d =>
          m <- __getattr__ d self "meta";;
          b <- Py.contains name m;;
          if b then (m' <- __getattr__ d self "meta";; Py.getitem name m')
          else Return VNone
      end
  end.

(** [self.meta]. *)
Definition self_meta (depth : nat) (self : Page) : result value :=
  match meta self with
  | Some m => Return m
  | None => __getattr__ depth self "meta"
  end.

(** [self.html]. *)
Definition self_html (depth : nat) (self : Page) : result value :=
  match html self with
  | Some x => Return (VStr x)
  | None => __getattr__ depth self "html"
  end.

(** *** The steps of [build_meta], on the value of [self.meta]

    Each step is one block of the method, in the order of the source; the
    calls of [util.out] are diagnostics and only the attribute reads in
    their arguments are kept. *)

(** Lines 99-106: the title. *)
Definition norm_title (fname : string) (m : value) : result value :=
  b <- Py.contains "title" m;;
  if b then Return m
  else
    m <- Py.setitem "title"
           (VStr (Str.join "." (removelast (Str.split "."%char fname)))) m;;
    t <- Py.getitem "title" m;;
    if match t with VStr s => String.eqb s "" | _ => false end
    then Py.setitem "title" (VStr fname) m
    else Return m.

(** Lines 109-116: the slug.  A slug that is given is compared with its
    slugified form for a warning, and kept. *)
Definition norm_slug (m : value) : result value :=
  b <- Py.contains "slug" m;;
  if negb b then
    t <- Py.getitem "title" m;;
    s <- Util.slugify t;;
    Py.setitem "slug" s m
  else
    s <- Py.getitem "slug" m;;
    discard Util.slugify s;;
    Return m.

(** Lines 119-122: the author. *)
Definition norm_author (m : value) : result value :=
  b <- Py.contains "author" m;;
  if b then
    a <- Py.getitem "author" m;;
    r <- Author.parse a;;
    Py.setitem "author" r m
  else Py.setitem "author" (VAuthor Author.empty) m.

(** Lines 125-130: the category.  The last statement assigns [[]] to
    [self.meta] itself. *)
Definition norm_category (m : value) : result value :=
  b <- Py.contains "category" m;;
  m <- (if b then
          c <- Py.getitem "category" m;;
          l <- Py.split "/"%char c;;
          Py.setitem "category" (VList (map VStr l)) m
        else Py.setitem "category" (VList []) m);;
  c <- Py.getitem "category" m;;
  if Py.is_none c then Return (VList []) else Return m.

(** Lines 133-134: the published flag. *)
Definition norm_published (m : value) : result value :=
  b <- Py.contains "published" m;;
  if negb b then Py.setitem "published" (VBool true) m else Return m.

(** Lines 137-141: the timestamp and its aliases. *)
Definition norm_datetime (now : Z) (m : value) : result value :=
  m <- for_each ["time"; "date"]
         (fun name m =>
            b <- Py.contains name m;;
            if b then (v <- Py.getitem name m;; Py.setitem "datetime" v m)
            else Return m) m;;
  b <- Py.contains "datetime" m;;
  if negb b then Py.setitem "datetime" (VDatetime now) m else Return m.

(** Lines 144-150: the tags. *)
Definition norm_tags (m : value) : result value :=
  b <- Py.contains "tags" m;;
  m <- (if negb b then Py.setitem "tags" (VList []) m
        else
          t <- Py.getitem "tags" m;;
          l <- Py.split ","%char t;;
          Py.setitem "tags" (VList (map (fun t => VStr (Str.strip t)) l)) m);;
  discard lookup_meta m "slug";;
  discard Py.getitem "tags" m;;
  Return m.

(** Lines 153-160: the url. *)
Definition norm_url (h : host) (m : value) : result value :=
  b <- Py.contains "url" m;;
  if negb b then
    discard lookup_meta m "categories";;
    m <- Py.setitem "url" (VStr "/") m;;
    cats <- (c <- lookup_meta m "category";; Py.iter c);;
    m <- for_each cats
           (fun cat m =>
              u <- (u <- Py.getitem "url" m;; Py.as_str u);;
              c <- Py.as_str cat;;
              Py.setitem "url" (VStr (OsPath.join h u c)) m) m;;
    u <- (u <- Py.getitem "url" m;; Py.as_str u);;
    f <- (s <- lookup_meta m "slug";; Py.add_str s ".html");;
    Py.setitem "url" (VStr (OsPath.join h u f)) m
  else Return m.

(** Lines 99-160, the body of [build_meta] after its first statement:
    the eight steps in the order of the source, on the value [m] of
    [self.meta]. *)
Definition normalize (h : host) (now : Z) (fname : string) (m : value) : result value :=
  m <- norm_title fname m;;
  m <- norm_slug m;;
  m <- norm_author m;;
  m <- norm_category m;;
  m <- norm_published m;;
  m <- norm_datetime now m;;
  m <- norm_tags m;;
  norm_url h m.

(** [build_meta(self)]: lines 96-97, [if self.meta is None: self.meta = {}],
    then the steps.  [now] is what [datetime.now()] returns. *)
Definition build_meta (depth : nat) (h : host) (now : Z) (self : Page) : result Page :=
  m <- self_meta depth self;;
  let self := if Py.is_none m then set_meta (VDict ∅) self else self in
  m <- self_meta depth self;;
  m <- normalize h now (filename self) m;;
  Return (set_meta m self).

(** [__init__(self, path, options, renderer)].  [file] is what
    [open(path).read()] returns, [yaml_load] is [yaml.load] and [renderer]
    the [render] method of the chosen renderer. *)
Definition __init__ (depth : nat) (h : host) (now : Z)
    (yaml_load : string -> result value) (renderer : string -> result string)
    (file : string) (path : string) (options : gmap string value) : result Page :=
  let fname := snd (OsPath.split h path) in
  let splits := Str.split1 "---" file in
  self <- match splits with
          | header :: body :: _ =>
              m <- yaml_load header;;
              Return (mkPage path fname options body (Some m) None None)
          | _ => Return (mkPage path fname options (nth 0 splits "") None None None)
          end;;
  self <- build_meta depth h now self;;
  discard __getattr__ depth self "slug";;
  c <- renderer (original self);;
  Return (set_content c self).

(** The mapping handed to the template: [if not templ_vars: templ_vars = {}]
    then [templ_vars.update({'page': self})]. *)
Definition template_vars (self : Page) (templ_vars : option (gmap string tvalue))
    : gmap string tvalue :=
  let templ_vars :=
    match templ_vars with
    | Some tv => if decide (tv = ∅) then ∅ else tv
    | None => ∅
    end in
  <["page" := TPage self]> templ_vars.

(** [render(self, templ_vars=None)]; [get_template] is
    [self.tmpl_env.get_template], whose result is the template's [render]. *)
Definition render (depth : nat)
    (get_template : string -> result (gmap string tvalue -> result string))
    (self : Page) (templ_vars : option (gmap string tvalue)) : result Page :=
  type <- (m <- self_meta depth self;; Py.get "type" (VStr "default") m);;
  template <- (n <- Py.add_str type ".html";; get_template n);;
  x <- template (template_vars self templ_vars);;
  Return (set_html x self).

(** The destination of [write]: [path = options.get('output_dir', '.')]
    then [path += self.url].  Unless both are strings the method ends in a
    [TypeError], at the [+=] or, for a list that the [+=] extended, in
    [os.path.dirname]. *)
Definition write_path (depth : nat) (self : Page) : result string :=
  let p := match options self !! "output_dir" with Some x => x | None => VStr "." end in
  u <- __getattr__ depth self "url";;
  match p, u with
  | VStr a, VStr b => Return (a ++ b)
  | _, _ => Raise TypeError
  end.

(** The last three statements of [write]: [f = open(path, 'w')],
    [f.write(self.html)], [f.close()]. *)
Definition write_file {S} (os : os_ops S) (depth : nat) (self : Page) (p : string) (fs : S)
    : result unit * S :=
  match open_w os p fs with
  | (Raise e, fs') => (Raise e, fs')
  | (Return _, fs') =>
      match self_html depth self with
      | Return (VStr x) => file_write os p x fs'
      | Return _ => (Raise TypeError, fs')
      | Raise e => (Raise e, fs')
      end
  end.

(** [write(self)].  The [except OSError] clause holds a debug message
    only: whatever [OSError] [os.makedirs] raised, control goes on to the
    statements after the [try]. *)
Definition write {S} (os : os_ops S) (depth : nat) (h : host) (self : Page) (fs : S)
    : result unit * S :=
  match write_path depth self with
  | Raise e => (Raise e, fs)
  | Return p =>
      match makedirs os (OsPath.dirname h p) fs with
      | (Return _, fs') => write_file os depth self p fs'
      | (Raise (OSError _), fs') => write_file os depth self p fs'
      | (Raise e, fs') => (Raise e, fs')
      end
  end.

End Page.

(* ===================================================================== *)
(** ** What the steps write, as functions on the dictionary *)
(* ===================================================================== *)

(** The title derived from the file name: the name without its last
    extension, or the whole name when that is empty. *)
Definition derived_title (fname : string) : string :=
  let t := Str.join "." (removelast (Str.split "."%char fname)) in
  if String.eqb t "" then fname else t.

Definition title_upd (fname : string) (d : gmap string value) : gmap string value :=
  match d !! "title" with
  | Some _ => d
  | None => <["title" := VStr (derived_title fname)]> d
  end.

Definition published_upd (d : gmap string value) : gmap string value :=
  match d !! "published" with
  | Some _ => d
  | None => <["published" := VBool true]> d
  end.

Definition alias_upd (k : string) (d : gmap string value) : gmap string value :=
  match d !! k with
  | Some v => <["datetime" := v]> d
  | None => d
  end.

Definition datetime_upd (now : Z) (d : gmap string value) : gmap string value :=
  let d := alias_upd "date" (alias_upd "time" d) in
  match d !! "datetime" with
  | Some _ => d
  | None => <["datetime" := VDatetime now]> d
  end.

(** The url built from the category segments and the slug. *)
Definition url_of (h : host) (cats : list string) (slug : string) : string :=
  OsPath.join h (fold_left (OsPath.join h) cats "/") (slug ++ ".html").

(** The tags the code computes from the raw string. *)
Definition tags_of (s : string) : list string :=
  map Str.strip (Str.split ","%char s).


(** The normalised dictionary, from the header [d] and the values the
    slug, author, category and tags steps computed. *)
Definition final (h : host) (now : Z) (fname : string) (d : gmap string value)
    (slug : string) (a : value) (cl tl : list string) : gmap string value :=
  let d1 := title_upd fname d in
  let d2 := match d !! "slug" with
            | Some _ => d1
            | None => <["slug" := VStr slug]> d1
            end in
  let d3 := <["author" := a]> d2 in
  let d4 := <["category" := VList (map VStr cl)]> d3 in
  let d6 := datetime_upd now (published_upd d4) in
  let d7 := <["tags" := VList (map VStr tl)]> d6 in
  match d !! "url" with
  | Some _ => d7
  | None => <["url" := VStr (url_of h cl slug)]> d7
  end.

Definition slug_ok (fname : string) (d : gmap string value) (slug : string) : Prop :=
  d !! "slug" = Some (VStr slug)
  \/ (d !! "slug" = None /\
      exists t, title_upd fname d !! "title" = Some (VStr t) /\
                slug = Util.slugify_str t).

Definition author_ok (d : gmap string value) (a : value) : Prop :=
  (d !! "author" = None /\ a = VAuthor Page.Author.empty)
  \/ (exists s au, d !! "author" = Some (VStr s) /\
                   Page.Author.parse_local (VStr s) = Return au /\ a = VNone).

Definition category_ok (d : gmap string value) (cl : list string) : Prop :=
  (d !! "category" = None /\ cl = [])
  \/ (exists s, d !! "category" = Some (VStr s) /\ cl = Str.split "/"%char s).

Definition tags_ok (d : gmap string value) (tl : list string) : Prop :=
  (d !! "tags" = None /\ tl = [])
  \/ (exists s, d !! "tags" = Some (VStr s) /\ tl = tags_of s).

(** A page whose header has been loaded: file [fname], metadata [hd]. *)
Definition page_of (fname : string) (hd : value) : Page :=
  mkPage fname fname ∅ "" (Some hd) None None.

(** A string has an occurrence of [sep]. *)
Definition occurs (sep s : string) : Prop :=
  exists a b, s = a ++ sep ++ b.

(** A disk for running [write]: the directories that exist, the
    directories that may not be created, and the files. *)
Record disk := mkDisk {
  dirs : list string;
  denied : list string;
  files : list (string * string)
}.

Definition disk_makedirs (p : string) (fs : disk) : result unit * disk :=
  if existsb (String.eqb p) (dirs fs) then (Raise (OSError EEXIST), fs)
  else if existsb (String.eqb p) (denied fs) then (Raise (OSError EACCES), fs)
  else (Return tt, mkDisk (p :: dirs fs) (denied fs) (files fs)).

Definition disk_open_w (h : host) (p : string) (fs : disk) : result unit * disk :=
  if existsb (String.eqb (OsPath.dirname h p)) (dirs fs)
  then (Return tt, mkDisk (dirs fs) (denied fs) ((p, "") :: files fs))
  else (Raise (IOError ENOENT), fs).

Definition disk_file_write (p x : string) (fs : disk) : result unit * disk :=
  (Return tt, mkDisk (dirs fs) (denied fs) ((p, x) :: files fs)).

Definition disk_os (h : host) : os_ops disk :=
  mkOs disk disk_makedirs (disk_open_w h) disk_file_write.

(** A page ready to be written to [./blog/hi.html]. *)
Definition written_page : Page :=
  mkPage "hi.txt" "hi.txt" ∅ "Hello"
    (Some (VDict {["url" := VStr "/blog/hi.html"]})) (Some "Hello") (Some "<p>Hello</p>").

(** A disk on which [./blog] does not exist and may not be created. *)
Definition denied_disk : disk := mkDisk ["."] ["./blog"] [].

(** A disk on which [./blog] exists. *)
Definition blog_disk : disk := mkDisk ["./blog"; "."] [] [].

(** A page with the title [Hi], and a template that prints the title of
    the page it is given under [page]. *)
Definition hi_page : Page := page_of "hi.txt" (VDict {["title" := VStr "Hi"]}).

Definition show_page (vars : gmap string tvalue) : result string :=
  match vars !! "page" with
  | Some (TPage p) =>
      match meta p with
      | Some (VDict d) =>
          match d !! "title" with
          | Some (VStr t) => Return ("page: " ++ t)
          | _ => Return "page without a title"
          end
      | _ => Return "page without metadata"
      end
  | Some (TVal _) => Return "not a page"
  | None => Raise KeyError
  end.


(** The directory part of a url: every segment followed by a slash. *)
Fixpoint dir_of (l : list string) : string :=
  match l with
  | [] => ""
  | p :: r => p ++ "/" ++ dir_of r
  end.

Definition nonempty (s : string) : bool := negb (String.eqb s "").

(** No white space at either end. *)
Definition trimmed (s : string) : bool :=
  match Str.first s with Some c => negb (Str.is_space c) | None => true end
  && match Str.last s with Some c => negb (Str.is_space c) | None => true end.

(** A header value that a step which splits it can take: a string, or no
    value at all. *)
Definition str_or_absent (o : option value) : bool :=
  match o with
  | None | Some (VStr _) => true
  | Some _ => false
  end.

(** An author value that the author step can take: none, or a string that
    the author pattern matches. *)
Definition author_loadable (o : option value) : bool :=
  match o with
  | None => true
  | Some (VStr s) =>
      match Re.match_ Page.Author.parse_author_regex s with
      | Some _ => true
      | None => false
      end
  | Some _ => false
  end.

(** The value that the slug step hands to [slugify] is a string: the slug
    when the header has one, else the title, which is derived from the file
    name when the header has none. *)
Definition slug_source_ok (d : gmap string value) : bool :=
  match d !! "slug" with
  | Some (VStr _) => true
  | Some _ => false
  | None => str_or_absent (d !! "title")
  end.

(* ===================================================================== *)
(** ** Results: basic facts *)
(* ===================================================================== *)

Lemma bind_Return_inv {A B} (r : result A) (f : A -> result B) (b : B) :
  bind r f = Return b -> exists a, r = Return a /\ f a = Return b.
Proof.
  destruct r as [a|e]; simpl; intros H; [exists a; auto | discriminate].
Qed.

Ltac inv_bind H :=
  let a := fresh "a" in
  let Ha := fresh "Ha" in
  apply bind_Return_inv in H; destruct H as (a & Ha & H).

(* ===================================================================== *)
(** ** The steps on a dictionary *)
(* ===================================================================== *)

Lemma norm_title_dict (fname : string) (d : gmap string value) :
  Page.norm_title fname (VDict d) = Return (VDict (title_upd fname d)).
Proof.
  unfold Page.norm_title, title_upd, derived_title. simpl.
  destruct (d !! "title") as [v|]; simpl; [reflexivity|].
  rewrite lookup_insert_eq. simpl.
  destruct (String.eqb (Str.join "." (removelast (Str.split "."%char fname))) "");
    simpl; [|reflexivity].
  now rewrite insert_insert_eq.
Qed.

Lemma norm_slug_inv (d : gmap string value) (m : value) :
  Page.norm_slug (VDict d) = Return m ->
  (exists s, d !! "slug" = Some (VStr s) /\ m = VDict d)
  \/ (d !! "slug" = None /\
      exists t, d !! "title" = Some (VStr t) /\
                m = VDict (<["slug" := VStr (Util.slugify_str t)]> d)).
Proof.
  unfold Page.norm_slug. simpl.
  destruct (d !! "slug") as [v|]; simpl.
  - destruct v; simpl; try discriminate.
    intros [= <-]. left. eauto.
  - destruct (d !! "title") as [t|]; simpl; try discriminate.
    destruct t; simpl; try discriminate.
    intros [= <-]. right. eauto.
Qed.

Lemma norm_author_inv (d : gmap string value) (m : value) :
  Page.norm_author (VDict d) = Return m ->
  (d !! "author" = None /\ m = VDict (<["author" := VAuthor Page.Author.empty]> d))
  \/ (exists s a, d !! "author" = Some (VStr s) /\
                  Page.Author.parse_local (VStr s) = Return a /\
                  m = VDict (<["author" := VNone]> d)).
Proof.
  unfold Page.norm_author. simpl.
  destruct (d !! "author") as [v|]; simpl.
  - unfold Page.Author.parse.
    destruct (Page.Author.parse_local v) as [a|e] eqn:E; simpl; try discriminate.
    intros [= <-]. right.
    destruct v; try discriminate. eauto.
  - intros [= <-]. left. auto.
Qed.

Lemma norm_category_inv (d : gmap string value) (m : value) :
  Page.norm_category (VDict d) = Return m ->
  exists l, m = VDict (<["category" := VList (map VStr l)]> d) /\
            ((d !! "category" = None /\ l = [])
             \/ (exists s, d !! "category" = Some (VStr s) /\ l = Str.split "/"%char s)).
Proof.
  unfold Page.norm_category. simpl.
  destruct (d !! "category") as [v|] eqn:E; simpl.
  - destruct v; simpl; try discriminate.
    rewrite lookup_insert_eq. simpl. intros [= <-]. eauto 6.
  - rewrite lookup_insert_eq. simpl. intros [= <-]. exists []. eauto.
Qed.

Lemma norm_published_dict (d : gmap string value) :
  Page.norm_published (VDict d) = Return (VDict (published_upd d)).
Proof.
  unfold Page.norm_published, published_upd. simpl.
  destruct (d !! "published"); reflexivity.
Qed.

Lemma norm_datetime_dict (now : Z) (d : gmap string value) :
  Page.norm_datetime now (VDict d) = Return (VDict (datetime_upd now d)).
Proof.
  unfold Page.norm_datetime, datetime_upd, alias_upd. simpl.
  destruct (d !! "time") as [v|]; simpl.
  - destruct (<["datetime" := v]> d !! "date") as [w|]; simpl.
    + now rewrite lookup_insert_eq.
    + now rewrite lookup_insert_eq.
  - destruct (d !! "date") as [w|]; simpl.
    + now rewrite lookup_insert_eq.
    + destruct (d !! "datetime"); reflexivity.
Qed.

Lemma norm_tags_inv (d : gmap string value) (m : value) :
  Page.norm_tags (VDict d) = Return m ->
  exists l, m = VDict (<["tags" := VList (map VStr l)]> d) /\
            ((d !! "tags" = None /\ l = [])
             \/ (exists s, d !! "tags" = Some (VStr s) /\ l = tags_of s)).
Proof.
  unfold Page.norm_tags, Page.lookup_meta, tags_of. simpl.
  destruct (d !! "tags") as [v|] eqn:E; simpl.
  - destruct v; simpl; try discriminate.
    rewrite lookup_insert_eq.
    destruct (<["tags" := _]> d !! "slug"); simpl; intros [= <-];
      eexists; (split; [|right; eauto]); now rewrite map_map.
  - rewrite lookup_insert_eq.
    destruct (<["tags" := _]> d !! "slug"); simpl; intros [= <-];
      exists []; eauto.
Qed.

Lemma url_loop (h : host) (l : list string) :
  forall (d : gmap string value) (u : string),
    d !! "url" = Some (VStr u) ->
    for_each (map VStr l)
      (fun cat m =>
         u <- (u <- Py.getitem "url" m;; Py.as_str u);;
         c <- Py.as_str cat;;
         Py.setitem "url" (VStr (OsPath.join h u c)) m) (VDict d)
    = Return (VDict (<["url" := VStr (fold_left (OsPath.join h) l u)]> d)).
Proof.
  induction l as [|c l IH]; intros d u Hu; simpl.
  - now rewrite insert_id.
  - rewrite Hu. simpl.
    rewrite (IH _ (OsPath.join h u c)) by apply lookup_insert_eq.
    now rewrite insert_insert_eq.
Qed.

Lemma norm_url_absent (h : host) (d : gmap string value) (l : list string) (s : string) :
  d !! "url" = None ->
  d !! "category" = Some (VList (map VStr l)) ->
  d !! "slug" = Some (VStr s) ->
  Page.norm_url h (VDict d) = Return (VDict (<["url" := VStr (url_of h l s)]> d)).
Proof.
  intros Hu Hc Hs. unfold Page.norm_url, Page.lookup_meta, url_of. simpl.
  rewrite Hu. simpl.
  destruct (d !! "categories"); simpl;
    rewrite lookup_insert_ne, Hc by discriminate; simpl;
    rewrite (url_loop h l _ "/") by apply lookup_insert_eq; simpl;
    rewrite lookup_insert_eq; simpl;
    rewrite !lookup_insert_ne, Hs by discriminate; simpl;
    now rewrite !insert_insert_eq.
Qed.

Lemma norm_url_present (h : host) (d : gmap string value) (v : value) :
  d !! "url" = Some v -> Page.norm_url h (VDict d) = Return (VDict d).
Proof.
  intros Hu. unfold Page.norm_url. simpl. now rewrite Hu.
Qed.

Lemma lookup_title_upd_ne (fname k : string) (d : gmap string value) :
  k <> "title" -> title_upd fname d !! k = d !! k.
Proof.
  intros Hk. unfold title_upd. destruct (d !! "title"); [reflexivity|].
  now rewrite lookup_insert_ne.
Qed.

Lemma lookup_published_upd_ne (k : string) (d : gmap string value) :
  k <> "published" -> published_upd d !! k = d !! k.
Proof.
  intros Hk. unfold published_upd. destruct (d !! "published"); [reflexivity|].
  now rewrite lookup_insert_ne.
Qed.

Lemma lookup_alias_upd_ne (a k : string) (d : gmap string value) :
  k <> "datetime" -> alias_upd a d !! k = d !! k.
Proof.
  intros Hk. unfold alias_upd. destruct (d !! a); [|reflexivity].
  now rewrite lookup_insert_ne.
Qed.

Lemma lookup_datetime_upd_ne (now : Z) (k : string) (d : gmap string value) :
  k <> "datetime" -> datetime_upd now d !! k = d !! k.
Proof.
  intros Hk. unfold datetime_upd.
  destruct (alias_upd "date" (alias_upd "time" d) !! "datetime");
    [|rewrite lookup_insert_ne by congruence];
    now rewrite !lookup_alias_upd_ne.
Qed.

Lemma title_upd_is_Some (fname : string) (d : gmap string value) :
  is_Some (title_upd fname d !! "title").
Proof.
  unfold title_upd. destruct (d !! "title") eqn:E.
  - rewrite E. eauto.
  - rewrite lookup_insert_eq. eauto.
Qed.

Lemma published_upd_is_Some (d : gmap string value) :
  is_Some (published_upd d !! "published").
Proof.
  unfold published_upd. destruct (d !! "published") eqn:E.
  - rewrite E. eauto.
  - rewrite lookup_insert_eq. eauto.
Qed.

Lemma datetime_upd_is_Some (now : Z) (d : gmap string value) :
  is_Some (datetime_upd now d !! "datetime").
Proof.
  unfold datetime_upd.
  destruct (alias_upd "date" (alias_upd "time" d) !! "datetime") eqn:E.
  - rewrite E. eauto.
  - rewrite lookup_insert_eq. eauto.
Qed.

(** Rewriting of look-ups through the updates of the steps, at keys given
    as literals. *)
Ltac lk :=
  repeat first
    [ rewrite lookup_insert_eq
    | rewrite lookup_insert_ne by discriminate
    | rewrite lookup_title_upd_ne by discriminate
    | rewrite lookup_published_upd_ne by discriminate
    | rewrite lookup_datetime_upd_ne by discriminate ].

Lemma normalize_inv (h : host) (now : Z) (fname : string)
    (d : gmap string value) (m : value) :
  Page.normalize h now fname (VDict d) = Return m ->
  exists slug a cl tl,
    slug_ok fname d slug /\ author_ok d a /\ category_ok d cl /\ tags_ok d tl /\
    m = VDict (final h now fname d slug a cl tl).
Proof.
  unfold Page.normalize. rewrite norm_title_dict. simpl. intros H.
  inv_bind H. apply norm_slug_inv in Ha.
  inv_bind H. rename Ha0 into Hau.
  inv_bind H. rename Ha0 into Hc.
  inv_bind H. rename Ha0 into Hp.
  inv_bind H. rename Ha0 into Hd.
  inv_bind H. rename Ha0 into Ht.
  assert (exists slug d2, a = VDict d2 /\ slug_ok fname d slug /\
            d2 = match d !! "slug" with
                 | Some _ => title_upd fname d
                 | None => <["slug" := VStr slug]> (title_upd fname d)
                 end /\ d2 !! "slug" = Some (VStr slug)) as (slug & d2 & -> & Hs & Hd2 & Hs2).
  { destruct Ha as [(s & Hs & ->) | (Hs & t & Ht' & ->)].
    - rewrite lookup_title_upd_ne in Hs by discriminate.
      exists s, (title_upd fname d). rewrite Hs. repeat split; auto.
      + now left.
      + now rewrite lookup_title_upd_ne by discriminate.
    - rewrite lookup_title_upd_ne in Hs by discriminate.
      exists (Util.slugify_str t), (<["slug" := VStr (Util.slugify_str t)]> (title_upd fname d)).
      rewrite Hs. repeat split; auto.
      + right. eauto.
      + apply lookup_insert_eq. }
  assert (exists au, a0 = VDict (<["author" := au]> d2) /\ author_ok d au) as (au & -> & Hao).
  { assert (d2 !! "author" = d !! "author") as E.
    { rewrite Hd2. destruct (d !! "slug"); now lk. }
    apply norm_author_inv in Hau. rewrite E in Hau.
    destruct Hau as [(Hn & ->) | (s & a' & Hn & Hp' & ->)].
    - eexists; split; eauto. now left.
    - eexists; split; eauto. right. eauto. }
  apply norm_category_inv in Hc. destruct Hc as (cl & -> & Hc).
  assert (category_ok d cl) as Hco.
  { assert ((<["author" := au]> d2) !! "category" = d !! "category") as E.
    { rewrite Hd2. destruct (d !! "slug"); now lk. }
    rewrite E in Hc. exact Hc. }
  rewrite norm_published_dict in Hp. injection Hp as <-.
  rewrite norm_datetime_dict in Hd. injection Hd as <-.
  apply norm_tags_inv in Ht. destruct Ht as (tl & -> & Ht).
  assert (tags_ok d tl) as Hto.
  { revert Ht. lk. rewrite Hd2. destruct (d !! "slug"); now lk. }
  exists slug, au, cl, tl. repeat (split; [assumption|]).
  unfold final. rewrite <- Hd2.
  set (d7 := <["tags" := _]> _) in *.
  assert (d7 !! "url" = d !! "url") as Eu.
  { unfold d7. lk. rewrite Hd2. destruct (d !! "slug"); now lk. }
  destruct (d !! "url") as [v|] eqn:Eurl.
  - rewrite (norm_url_present h d7 v) in H by exact Eu. now injection H as <-.
  - rewrite (norm_url_absent h d7 cl slug) in H.
    + now injection H as <-.
    + exact Eu.
    + unfold d7. now lk.
    + unfold d7. now lk.
Qed.

Lemma norm_slug_present (d : gmap string value) (s : string) :
  d !! "slug" = Some (VStr s) -> Page.norm_slug (VDict d) = Return (VDict d).
Proof.
  intros Hs. unfold Page.norm_slug. simpl. now rewrite Hs.
Qed.

Lemma norm_slug_absent (d : gmap string value) (t : string) :
  d !! "slug" = None -> d !! "title" = Some (VStr t) ->
  Page.norm_slug (VDict d) = Return (VDict (<["slug" := VStr (Util.slugify_str t)]> d)).
Proof.
  intros Hs Ht. unfold Page.norm_slug. simpl. rewrite Hs. simpl. now rewrite Ht.
Qed.

Lemma norm_author_ok (d : gmap string value) (a : value) :
  author_ok d a -> Page.norm_author (VDict d) = Return (VDict (<["author" := a]> d)).
Proof.
  unfold Page.norm_author, Page.Author.parse.
  cbn [Py.contains Py.getitem bind].
  intros [(Hn & ->) | (s & au & Hn & Hp & ->)]; rewrite Hn;
    cbn [Py.contains Py.getitem bind]; [reflexivity|].
  now rewrite Hp.
Qed.

Lemma norm_category_ok (d : gmap string value) (cl : list string) :
  category_ok d cl ->
  Page.norm_category (VDict d) = Return (VDict (<["category" := VList (map VStr cl)]> d)).
Proof.
  unfold Page.norm_category. simpl.
  intros [(Hn & ->) | (s & Hn & ->)]; rewrite Hn; simpl;
    now rewrite lookup_insert_eq.
Qed.

Lemma norm_tags_ok (d : gmap string value) (tl : list string) :
  tags_ok d tl ->
  Page.norm_tags (VDict d) = Return (VDict (<["tags" := VList (map VStr tl)]> d)).
Proof.
  unfold Page.norm_tags, Page.lookup_meta, tags_of. simpl.
  intros [(Hn & ->) | (s & Hn & ->)]; rewrite Hn; simpl;
    rewrite lookup_insert_eq;
    destruct (<["tags" := _]> d !! "slug"); simpl; try reflexivity;
    unfold tags_of; now rewrite map_map.
Qed.

(** The converse of [normalize_inv]: when the slug, author, category and
    tags steps can run, normalisation returns the dictionary [final]. *)
Lemma normalize_ok (h : host) (now : Z) (fname : string) (d : gmap string value)
    (slug : string) (a : value) (cl tl : list string) :
  slug_ok fname d slug -> author_ok d a -> category_ok d cl -> tags_ok d tl ->
  Page.normalize h now fname (VDict d) = Return (VDict (final h now fname d slug a cl tl)).
Proof.
  intros Hs Ha Hc Ht. unfold Page.normalize, final.
  rewrite norm_title_dict. simpl.
  set (d2 := match d !! "slug" with
             | Some _ => title_upd fname d
             | None => <["slug" := VStr slug]> (title_upd fname d)
             end).
  assert (Page.norm_slug (VDict (title_upd fname d)) = Return (VDict d2)
          /\ d2 !! "slug" = Some (VStr slug)) as [E2 Hs2].
  { unfold d2. destruct Hs as [Hs | (Hs & t & Ht' & ->)]; rewrite Hs.
    - split.
      + apply (norm_slug_present _ slug). now lk.
      + now lk.
    - split.
      + apply norm_slug_absent; [now lk | exact Ht'].
      + now lk. }
  assert (forall k, k <> "title" -> k <> "slug" -> d2 !! k = d !! k) as Hfr.
  { intros k H1 H2. unfold d2.
    destruct (d !! "slug"); [|rewrite lookup_insert_ne by congruence];
      now rewrite lookup_title_upd_ne. }
  rewrite E2. simpl.
  rewrite (norm_author_ok d2 a).
  2:{ unfold author_ok. rewrite Hfr by discriminate. exact Ha. }
  simpl. rewrite (norm_category_ok _ cl).
  2:{ unfold category_ok. lk. rewrite Hfr by discriminate. exact Hc. }
  simpl. rewrite norm_published_dict. simpl.
  rewrite norm_datetime_dict. simpl.
  rewrite (norm_tags_ok _ tl).
  2:{ unfold tags_ok. lk. rewrite Hfr by discriminate. exact Ht. }
  simpl.
  set (d7 := <["tags" := _]> _).
  assert (d7 !! "url" = d !! "url") as Eu.
  { unfold d7. lk. now apply Hfr. }
  destruct (d !! "url") as [v|] eqn:Eurl.
  - now apply (norm_url_present h d7 v).
  - apply norm_url_absent; [exact Eu | unfold d7; now lk | unfold d7; now lk].
Qed.

(** Only a dictionary can be normalised. *)
Lemma normalize_returns_dict (h : host) (now : Z) (fname : string) (hd m : value) :
  Page.normalize h now fname hd = Return m -> exists d, hd = VDict d.
Proof.
  destruct hd; try (now eauto); unfold Page.normalize, Page.norm_title; simpl;
    try discriminate.
  - destruct (Str.contains "title" s); simpl; [|discriminate].
    unfold Page.norm_slug; simpl.
    destruct (Str.contains "slug" s); simpl; discriminate.
  - destruct (existsb _ l); simpl; [|discriminate].
    unfold Page.norm_slug; simpl.
    destruct (existsb _ l); simpl; discriminate.
Qed.

(* ===================================================================== *)
(** ** Strings: the first occurrence of a separator *)
(* ===================================================================== *)

Lemma app_String (c : ascii) (a b : string) : String c a ++ b = String c (a ++ b).
Proof. reflexivity. Qed.

Lemma app_Empty (b : string) : "" ++ b = b.
Proof. reflexivity. Qed.

Lemma prefix_app (sep s : string) :
  String.prefix sep s = true -> s = sep ++ Str.drop (String.length sep) s.
Proof.
  revert s. induction sep as [|c sep IH]; intros s H.
  - now destruct s.
  - destruct s as [|a s]; simpl in H; [discriminate|].
    destruct (Ascii.ascii_dec c a) as [->|]; [|discriminate].
    rewrite app_String. simpl. f_equal. now apply IH.
Qed.

Lemma app_prefix (sep b : string) : String.prefix sep (sep ++ b) = true.
Proof.
  induction sep as [|c sep IH].
  - rewrite app_Empty. now destruct b.
  - rewrite app_String. simpl. now destruct (Ascii.ascii_dec c c).
Qed.

Lemma find_eq (sep s : string) :
  Str.find sep s =
  if String.prefix sep s then Some (EmptyString, Str.drop (String.length sep) s)
  else match s with
       | EmptyString => None
       | String c r =>
           match Str.find sep r with
           | Some (a, b) => Some (String c a, b)
           | None => None
           end
       end.
Proof. destruct s; reflexivity. Qed.

Lemma find_Some_occurs (sep s a b : string) :
  Str.find sep s = Some (a, b) -> s = a ++ sep ++ b.
Proof.
  revert a b. induction s as [|c s IH]; intros a b; rewrite find_eq.
  - destruct (String.prefix sep "") eqn:E; [|discriminate].
    intros [= <- <-]. rewrite app_Empty. now apply prefix_app in E.
  - destruct (String.prefix sep (String c s)) eqn:E.
    + intros [= <- <-]. rewrite app_Empty. now apply prefix_app in E.
    + destruct (Str.find sep s) as [[a' b']|]; [|discriminate].
      intros [= <- <-]. rewrite app_String. f_equal. now apply IH.
Qed.

Lemma find_prefix (sep s : string) :
  String.prefix sep s = true -> Str.find sep s <> None.
Proof.
  intros H. rewrite find_eq, H. discriminate.
Qed.

Lemma occurs_find (sep s : string) :
  occurs sep s -> Str.find sep s <> None.
Proof.
  intros (a & b & ->). induction a as [|c a IH].
  - rewrite app_Empty. apply find_prefix, app_prefix.
  - rewrite app_String, find_eq.
    destruct (String.prefix sep (String c (a ++ sep ++ b))); [discriminate|].
    destruct (Str.find sep (a ++ sep ++ b)) as [[a' b']|]; [discriminate|].
    now contradict IH.
Qed.

Lemma find_None_iff (sep s : string) :
  Str.find sep s = None <-> ~ occurs sep s.
Proof.
  split.
  - intros H Ho. now apply occurs_find in Ho.
  - intros H. destruct (Str.find sep s) as [[a b]|] eqn:E; [|reflexivity].
    exfalso. apply H. exists a, b. now apply find_Some_occurs.
Qed.

(* ===================================================================== *)
(** ** The missing-attribute hook *)
(* ===================================================================== *)

(** While [meta] is not set, every attribute that goes through
    [__getattr__] exhausts the recursion limit, whatever the limit. *)
Lemma getattr_unset (depth : nat) (self : Page) (attr : string) :
  meta self = None -> Page.__getattr__ depth self attr = Raise RecursionError.
Proof.
  intros Hm. revert attr.
  induction depth as [|d IH]; intros attr; simpl; rewrite Hm; [reflexivity|].
  now rewrite IH.
Qed.

Lemma getattr_set (depth : nat) (self : Page) (attr : string) (m : value) :
  meta self = Some m -> Page.__getattr__ depth self attr = Page.lookup_meta m attr.
Proof.
  intros Hm. destruct depth; simpl; now rewrite Hm.
Qed.

Lemma build_meta_dict (depth : nat) (h : host) (now : Z) (self : Page)
    (d : gmap string value) :
  meta self = Some (VDict d) ->
  Page.build_meta depth h now self
  = (m <- Page.normalize h now (filename self) (VDict d);; Return (set_meta m self)).
Proof.
  intros Hm. unfold Page.build_meta, Page.self_meta. rewrite Hm. simpl.
  now rewrite Hm.
Qed.

Lemma build_meta_unset (depth : nat) (h : host) (now : Z) (self : Page) :
  meta self = None -> Page.build_meta depth h now self = Raise RecursionError.
Proof.
  intros Hm. unfold Page.build_meta, Page.self_meta. rewrite Hm.
  now rewrite getattr_unset.
Qed.

(* ===================================================================== *)
(** ** The author pattern *)
(* ===================================================================== *)

Lemma not_occurs_lt_cons (c : ascii) (r : string) :
  ~ occurs "<" (String c r) -> c <> "<"%char /\ ~ occurs "<" r.
Proof.
  intros H. split.
  - intros ->. apply H. now exists "", r.
  - intros (a & b & ->). apply H. now exists (String c a), b.
Qed.

(** A greedy repetition fails when its continuation fails at every
    position it can stop at. *)
Lemma star_fail {R} (Q : string -> Prop) (c : Re.cls) (k : string -> option R) :
  (forall a r, Q (String a r) -> Q r) ->
  (forall s, Q s -> k s = None) ->
  forall s, Q s -> Re.star c s k = None.
Proof.
  intros Htl Hk. induction s as [|a r IH]; intros HQ; simpl.
  - now apply Hk.
  - destruct (Re.cls_match c a).
    + rewrite IH by (eapply Htl; eauto). now apply Hk.
    + now apply Hk.
Qed.

(** The pattern needs a [<]: a string without one does not match. *)
Lemma author_regex_needs_lt (s : string) :
  ~ occurs "<" s -> Re.match_ Page.Author.parse_author_regex s = None.
Proof.
  intros Hs. unfold Re.match_, Page.Author.parse_author_regex. cbn [Re.run].
  apply (star_fail (fun s => ~ occurs "<" s)); [| |exact Hs].
  - intros a r H. now apply not_occurs_lt_cons in H.
  - intros s1 H1. destruct s1 as [|a r]; [reflexivity|].
    destruct (Re.cls_match (Re.Chr " ") a); [|reflexivity].
    apply not_occurs_lt_cons in H1 as [_ H1].
    apply (star_fail (fun s => ~ occurs "<" s)); [| |exact H1].
    + intros a' r' H. now apply not_occurs_lt_cons in H.
    + intros s2 H2. destruct s2 as [|b r2]; [reflexivity|].
      apply not_occurs_lt_cons in H2 as [H2 _].
      destruct (Ascii.eqb_spec b "<"); [contradiction|reflexivity].
Qed.

(* ===================================================================== *)
(** ** A header whose category is null *)
(* ===================================================================== *)

(** C1, on the code: no header whose [category] is null is normalised.
    The category step calls [split] on [None], which raises, before the
    test [self.meta['category'] == None] is reached; [build_meta] returns no
    record, so no record with an empty category and the other fields in
    place. *)
Theorem null_category_never_normalised (depth : nat) (h : host) (now : Z)
    (self : Page) (d : gmap string value) :
  meta self = Some (VDict d) ->
  d !! "category" = Some VNone ->
  exists e, Page.build_meta depth h now self = Raise e.
Proof.
  intros Hm Hc. rewrite (build_meta_dict _ _ _ _ d Hm).
  destruct (Page.normalize h now (filename self) (VDict d)) as [m|e] eqn:E.
  - apply normalize_inv in E as (slug & a & cl & tl & _ & _ & Hco & _).
    destruct Hco as [(Hn & _) | (s & Hn & _)]; congruence.
  - now exists e.
Qed.

Lemma null_category_never_normalised_witness :
  exists e, Page.build_meta 1000 Posix 0
              (page_of "a.txt" (VDict (<["title" := VStr "Hi"]> {["category" := VNone]})))
            = Raise e.
Proof.
  apply (null_category_never_normalised 1000 Posix 0
           (page_of "a.txt" (VDict (<["title" := VStr "Hi"]> {["category" := VNone]})))
           (<["title" := VStr "Hi"]> {["category" := VNone]})); reflexivity.
Defined.

(** For the header that holds a null category and nothing else, the
    exception is the [AttributeError] of [None.split]. *)
Theorem null_category_raises (depth : nat) (h : host) (now : Z) :
  Page.build_meta depth h now (page_of "a.txt" (VDict {["category" := VNone]}))
  = Raise AttributeError.
Proof. intros. vm_compute. reflexivity. Qed.

(* ===================================================================== *)
(** ** A source file without a header *)
(* ===================================================================== *)

(** C2, on the code: when the file has no [---], [__init__] never assigns
    [self.meta]; the first [self.meta] of [build_meta] goes through
    [__getattr__], which reads [self.meta] again, and the load ends with the
    recursion-limit error, for every limit. *)
Theorem init_without_delimiter (depth : nat) (h : host) (now : Z)
    (yaml_load : string -> result value) (renderer : string -> result string)
    (file path : string) (options : gmap string value) :
  ~ occurs "---" file ->
  Page.__init__ depth h now yaml_load renderer file path options = Raise RecursionError.
Proof.
  intros Hf. apply find_None_iff in Hf.
  unfold Page.__init__, Str.split1. rewrite Hf. simpl.
  now rewrite build_meta_unset.
Qed.

Lemma init_without_delimiter_witness :
  Page.__init__ 1000 Posix 0 (fun _ => Return VNone) (fun s => Return s)
    "Hello world" "content/post.txt" ∅ = Raise RecursionError.
Proof.
  apply (init_without_delimiter 1000 Posix 0 (fun _ => Return VNone) (fun s => Return s)
           "Hello world" "content/post.txt" ∅).
  apply find_None_iff. reflexivity.
Defined.

(* ===================================================================== *)
(** ** Parsing an author *)
(* ===================================================================== *)

(** C3, on the code: the pattern captures the name and the address, and
    the local object prints as the raw string, but [parse] has no [return]
    statement: the call yields [None], for this and for every argument on
    which it does not raise. *)
Theorem author_parse_returns_none :
  Page.Author.parse_local (VStr "Jane Doe <jane@example.com>")
  = Return (mkAuthor "Jane Doe <jane@example.com>" (Some "Jane Doe")
              (Some "jane@example.com"))
  /\ Page.Author.__str__
       (mkAuthor "Jane Doe <jane@example.com>" (Some "Jane Doe")
          (Some "jane@example.com")) = "Jane Doe <jane@example.com>"
  /\ Page.Author.parse (VStr "Jane Doe <jane@example.com>") = Return VNone
  /\ forall r : value,
       Page.Author.parse r = Return VNone \/ exists e, Page.Author.parse r = Raise e.
Proof.
  repeat split; try reflexivity.
  intros r. unfold Page.Author.parse.
  destruct (Page.Author.parse_local r) as [a|e]; simpl; eauto.
Qed.

(** C4, on the code: when the pattern does not match, [match] returns
    [None] and [.groups()] raises [AttributeError]; [parse] does not fall
    back to the raw string. *)
Theorem author_parse_unmatched_raises (s : string) :
  Re.match_ Page.Author.parse_author_regex s = None ->
  Page.Author.parse (VStr s) = Raise AttributeError.
Proof.
  intros H. unfold Page.Author.parse, Page.Author.parse_local. now rewrite H.
Qed.

Lemma author_parse_unmatched_raises_witness :
  Page.Author.parse (VStr "Just A Name") = Raise AttributeError.
Proof.
  apply (author_parse_unmatched_raises "Just A Name"). reflexivity.
Defined.

(** X8: every string without a [<] is such an argument: [parse] raises
    [AttributeError] on it. *)
Lemma author_parse_without_lt (s : string) :
  ~ occurs "<" s -> Page.Author.parse_local (VStr s) = Raise AttributeError.
Proof.
  intros H. unfold Page.Author.parse_local.
  now rewrite author_regex_needs_lt.
Qed.

Lemma author_parse_without_lt_witness :
  Page.Author.parse_local (VStr "Just A Name") = Raise AttributeError.
Proof.
  apply (author_parse_without_lt "Just A Name").
  apply find_None_iff. reflexivity.
Defined.

(* ===================================================================== *)
(** ** The normalised dictionary *)
(* ===================================================================== *)

Lemma lookup_datetime_upd_eq (now : Z) (x : gmap string value) :
  datetime_upd now x !! "datetime"
  = Some (match x !! "date" with
          | Some v => v
          | None => match x !! "time" with
                    | Some v => v
                    | None => match x !! "datetime" with
                              | Some v => v
                              | None => VDatetime now
                              end
                    end
          end).
Proof.
  unfold datetime_upd, alias_upd.
  destruct (x !! "time") as [t|] eqn:Et.
  - rewrite lookup_insert_ne by discriminate.
    destruct (x !! "date") as [v|] eqn:Ed; now rewrite !lookup_insert_eq.
  - destruct (x !! "date") as [v|] eqn:Ed.
    + now rewrite !lookup_insert_eq.
    + destruct (x !! "datetime") as [w|] eqn:Ew; [exact Ew|].
      now rewrite lookup_insert_eq.
Qed.

(** A dictionary whose [time], [date] and [datetime] entries are those of
    an output of the datetime step is left unchanged by the step. *)
Lemma datetime_upd_fix (now now' : Z) (x y : gmap string value) :
  y !! "time" = x !! "time" ->
  y !! "date" = x !! "date" ->
  y !! "datetime" = datetime_upd now x !! "datetime" ->
  datetime_upd now' y = y.
Proof.
  intros Ht Hd Hdt. apply map_eq. intros k.
  destruct (decide (k = "datetime")) as [->|Hk].
  - rewrite lookup_datetime_upd_eq, Hdt, lookup_datetime_upd_eq, Ht, Hd.
    destruct (x !! "date"); [reflexivity|].
    destruct (x !! "time"); reflexivity.
  - now rewrite lookup_datetime_upd_ne.
Qed.

Section Final.

Context (h : host) (now : Z) (fname : string) (d : gmap string value).
Context (slug : string) (a : value) (cl tl : list string).

Let fin := final h now fname d slug a cl tl.

Lemma final_title : is_Some (fin !! "title").
Proof.
  unfold fin, final.
  destruct (d !! "url"), (d !! "slug"); lk; apply title_upd_is_Some.
Qed.

Lemma final_slug : slug_ok fname d slug -> fin !! "slug" = Some (VStr slug).
Proof.
  unfold fin, final. intros [Hs | (Hs & _)]; rewrite Hs;
    destruct (d !! "url"); now lk.
Qed.

Lemma final_author : fin !! "author" = Some a.
Proof.
  unfold fin, final. destruct (d !! "url"); now lk.
Qed.

Lemma final_category : fin !! "category" = Some (VList (map VStr cl)).
Proof.
  unfold fin, final. destruct (d !! "url"); now lk.
Qed.

Lemma final_published : is_Some (fin !! "published").
Proof.
  unfold fin, final. destruct (d !! "url"); lk; apply published_upd_is_Some.
Qed.

Lemma final_tags : fin !! "tags" = Some (VList (map VStr tl)).
Proof.
  unfold fin, final. destruct (d !! "url"); now lk.
Qed.

Lemma final_url :
  fin !! "url" = Some (match d !! "url" with
                       | Some v => v
                       | None => VStr (url_of h cl slug)
                       end).
Proof.
  unfold fin, final. destruct (d !! "url") as [v|] eqn:E; lk; [|reflexivity].
  destruct (d !! "slug"); lk; exact E.
Qed.

Lemma final_datetime :
  fin !! "datetime"
  = Some (match d !! "date" with
          | Some v => v
          | None => match d !! "time" with
                    | Some v => v
                    | None => match d !! "datetime" with
                              | Some v => v
                              | None => VDatetime now
                              end
                    end
          end).
Proof.
  unfold fin, final.
  destruct (d !! "url"); lk; rewrite lookup_datetime_upd_eq; lk;
    destruct (d !! "slug"); now lk.
Qed.

Lemma final_datetime_fix (now' : Z) : datetime_upd now' fin = fin.
Proof.
  unfold fin, final.
  set (d5 := published_upd _).
  apply (datetime_upd_fix now now' d5); destruct (d !! "url"); now lk.
Qed.

(** Keys that no step writes keep the value of the header. *)
Lemma final_other (k : string) :
  k <> "title" -> k <> "slug" -> k <> "author" -> k <> "category" ->
  k <> "published" -> k <> "datetime" -> k <> "tags" -> k <> "url" ->
  fin !! k = d !! k.
Proof.
  intros. unfold fin, final.
  destruct (d !! "url"), (d !! "slug");
    rewrite ?lookup_insert_ne by congruence;
    rewrite lookup_datetime_upd_ne, lookup_published_upd_ne by congruence;
    rewrite ?lookup_insert_ne by congruence;
    now rewrite lookup_title_upd_ne by congruence.
Qed.

End Final.

(* ===================================================================== *)
(** ** Normalising a normalised record *)
(* ===================================================================== *)

Lemma title_upd_present (fname : string) (x : gmap string value) :
  is_Some (x !! "title") -> title_upd fname x = x.
Proof.
  intros [v Hv]. unfold title_upd. now rewrite Hv.
Qed.

Lemma published_upd_present (x : gmap string value) :
  is_Some (x !! "published") -> published_upd x = x.
Proof.
  intros [v Hv]. unfold published_upd. now rewrite Hv.
Qed.

Lemma author_ok_not_str (d : gmap string value) (a : value) :
  author_ok d a -> Page.Author.parse a = Raise TypeError.
Proof.
  intros [(_ & ->) | (s & au & _ & _ & ->)]; reflexivity.
Qed.

Lemma norm_author_again (x : gmap string value) (a : value) :
  x !! "author" = Some a -> Page.Author.parse a = Raise TypeError ->
  Page.norm_author (VDict x) = Raise TypeError.
Proof.
  intros Hx Hp. unfold Page.norm_author. cbn [Py.contains Py.getitem bind].
  rewrite Hx. cbn [bind]. now rewrite Hp.
Qed.

(** C5, the counterexample: the record normalised from the empty header of
    [a.txt] is not normalised to itself; the second run raises. *)
Lemma normalize_not_idempotent :
  exists m,
    Page.normalize Posix 0 "a.txt" (VDict ∅) = Return m
    /\ Page.normalize Posix 0 "a.txt" m <> Return m.
Proof.
  eexists. split; [vm_compute; reflexivity|].
  vm_compute. discriminate.
Qed.

(** C5, as the code has it: on a record [m] that normalisation returned,
    the title, slug, published, datetime and url steps change nothing, the
    author, category and tags steps raise (they expect the raw strings of
    a header), and so does normalisation as a whole, at the author step. *)
Theorem normalize_again (h : host) (now : Z) (fname : string) (hd m : value) :
  Page.normalize h now fname hd = Return m ->
  Page.norm_title fname m = Return m
  /\ Page.norm_slug m = Return m
  /\ Page.norm_published m = Return m
  /\ (forall now', Page.norm_datetime now' m = Return m)
  /\ Page.norm_url h m = Return m
  /\ Page.norm_author m = Raise TypeError
  /\ Page.norm_category m = Raise AttributeError
  /\ Page.norm_tags m = Raise AttributeError
  /\ (forall now', Page.normalize h now' fname m = Raise TypeError).
Proof.
  intros H.
  destruct (normalize_returns_dict _ _ _ _ _ H) as (d & ->).
  apply normalize_inv in H as (slug & a & cl & tl & Hs & Ha & Hc & Ht & ->).
  set (fin := final h now fname d slug a cl tl).
  assert (Page.norm_title fname (VDict fin) = Return (VDict fin)) as E1.
  { rewrite norm_title_dict, title_upd_present; [reflexivity|apply final_title]. }
  assert (Page.norm_slug (VDict fin) = Return (VDict fin)) as E2.
  { apply (norm_slug_present _ slug), final_slug, Hs. }
  assert (Page.norm_author (VDict fin) = Raise TypeError) as E3.
  { apply (norm_author_again _ a); [apply final_author|].
    eapply author_ok_not_str, Ha. }
  repeat split.
  - exact E1.
  - exact E2.
  - rewrite norm_published_dict, published_upd_present;
      [reflexivity|apply final_published].
  - intros now'. rewrite norm_datetime_dict. unfold fin.
    now rewrite final_datetime_fix.
  - eapply norm_url_present. apply final_url.
  - exact E3.
  - unfold Page.norm_category. cbn [Py.contains Py.getitem bind].
    unfold fin. now rewrite final_category.
  - unfold Page.norm_tags. cbn [Py.contains Py.getitem bind].
    unfold fin. now rewrite final_tags.
  - intros now'. unfold Page.normalize. rewrite E1. cbn [bind].
    rewrite E2. cbn [bind]. now rewrite E3.
Qed.

Lemma normalize_again_witness :
  Page.norm_title "a.txt" (VDict (final Posix 0 "a.txt" ∅ "a" (VAuthor Page.Author.empty) [] []))
  = Return (VDict (final Posix 0 "a.txt" ∅ "a" (VAuthor Page.Author.empty) [] []))
  /\ forall now',
       Page.normalize Posix now' "a.txt"
         (VDict (final Posix 0 "a.txt" ∅ "a" (VAuthor Page.Author.empty) [] []))
       = Raise TypeError.
Proof.
  pose proof (normalize_again Posix 0 "a.txt" (VDict ∅)
                (VDict (final Posix 0 "a.txt" ∅ "a" (VAuthor Page.Author.empty) [] []))
                eq_refl) as H.
  split; [apply H|]. apply H.
Defined.

(* ===================================================================== *)
(** ** The slug *)
(* ===================================================================== *)

Lemma lower_slug_char (c : ascii) :
  Util.is_alnum c = true -> slug_char (Util.lower c) = true.
Proof.
  destruct c as [[] [] [] [] [] [] [] []]; vm_compute; congruence.
Qed.

Lemma collapse_slug_re (s : string) :
  forall b, slug_re (Util.collapse b s) = true.
Proof.
  unfold slug_re. induction s as [|c s IH]; intros b; simpl; [reflexivity|].
  destruct (Util.is_alnum c) eqn:E; simpl.
  - now rewrite lower_slug_char, IH.
  - destruct b; simpl; [apply IH|]. now rewrite IH.
Qed.

Lemma ltrim_slug_re (s : string) :
  slug_re s = true -> slug_re (Util.ltrim s) = true.
Proof.
  unfold slug_re. induction s as [|c s IH]; simpl; [reflexivity|].
  intros H. apply andb_prop in H as [Hc Hs].
  destruct (Ascii.eqb c Util.dash); [now apply IH|].
  simpl. now rewrite Hc, Hs.
Qed.

Lemma rtrim_slug_re (s : string) :
  slug_re s = true -> slug_re (Util.rtrim s) = true.
Proof.
  unfold slug_re. induction s as [|c s IH]; simpl; [reflexivity|].
  intros H. apply andb_prop in H as [Hc Hs]. specialize (IH Hs).
  destruct (Util.rtrim s) as [|c' r].
  - destruct (Ascii.eqb c Util.dash); simpl; [reflexivity|now rewrite Hc].
  - simpl in *. now rewrite Hc, IH.
Qed.

(** Every slug that [slugify] derives is made of [a-z], [0-9] and [-]. *)
Lemma slugify_slug_re (t : string) : slug_re (Util.slugify_str t) = true.
Proof.
  unfold Util.slugify_str. apply rtrim_slug_re, ltrim_slug_re, collapse_slug_re.
Qed.

Lemma final_title_eq (h : host) (now : Z) (fname : string) (d : gmap string value)
    (slug : string) (a : value) (cl tl : list string) :
  final h now fname d slug a cl tl !! "title" = title_upd fname d !! "title".
Proof.
  unfold final. destruct (d !! "url"), (d !! "slug"); now lk.
Qed.

(** C6, the counterexample: the slug [Hello World] given in the header is
    the slug of the normalised record, and it is not in [a-z0-9-]*. *)
Lemma explicit_slug_kept :
  exists d',
    Page.normalize Posix 0 "a.txt" (VDict {["slug" := VStr "Hello World"]})
    = Return (VDict d')
    /\ d' !! "slug" = Some (VStr "Hello World")
    /\ slug_re "Hello World" = false.
Proof.
  eexists. split; [vm_compute; reflexivity|]. split; reflexivity.
Qed.

(** C6, as the code has it: a slug given in the header is kept as it is;
    a slug that is missing is derived from the title by [slugify], and the
    derived slug matches [a-z0-9-]*. *)
Theorem slug_derived_or_kept (h : host) (now : Z) (fname : string)
    (d : gmap string value) (m : value) :
  Page.normalize h now fname (VDict d) = Return m ->
  exists d' s,
    m = VDict d' /\ d' !! "slug" = Some (VStr s)
    /\ match d !! "slug" with
       | Some v => v = VStr s
       | None => slug_re s = true
                 /\ exists t, d' !! "title" = Some (VStr t) /\ s = Util.slugify_str t
       end.
Proof.
  intros H.
  apply normalize_inv in H as (slug & a & cl & tl & Hs & _ & _ & _ & ->).
  eexists _, slug. split; [reflexivity|]. split; [now apply final_slug|].
  destruct Hs as [Hs | (Hs & t & Ht & ->)]; rewrite Hs; [reflexivity|].
  split; [apply slugify_slug_re|].
  exists t. split; [|reflexivity]. now rewrite final_title_eq.
Qed.

Lemma slug_derived_or_kept_witness :
  exists d',
    VDict (final Posix 0 "My Post.txt" ∅ "my-post" (VAuthor Page.Author.empty) [] [])
    = VDict d'
    /\ d' !! "title" = Some (VStr "My Post")
    /\ d' !! "slug" = Some (VStr "my-post")
    /\ slug_re "my-post" = true.
Proof.
  assert (Page.normalize Posix 0 "My Post.txt" (VDict ∅)
          = Return (VDict (final Posix 0 "My Post.txt" ∅ "my-post"
                             (VAuthor Page.Author.empty) [] []))) as H
    by (vm_compute; reflexivity).
  destruct (slug_derived_or_kept Posix 0 "My Post.txt" ∅ _ H)
    as (d' & s & E & Hs & Hre & t & Ht & Hst).
  exists d'. injection E as <-. repeat split; reflexivity.
Defined.

(* ===================================================================== *)
(** ** The tags *)
(* ===================================================================== *)




(* ===================================================================== *)
(** ** The url *)
(* ===================================================================== *)

(** X1: on a POSIX host, a url given in the header is kept; a missing url
    is [/] joined by [posixpath.join] with the category segments in order
    and then with [slug.html]. *)
Lemma url_derived_or_kept (now : Z) (fname : string)
    (d : gmap string value) (m : value) :
  Page.normalize Posix now fname (VDict d) = Return m ->
  exists d',
    m = VDict d'
    /\ match d !! "url" with
       | Some v => d' !! "url" = Some v
       | None =>
           exists cl slug,
             d' !! "category" = Some (VList (map VStr cl))
             /\ d' !! "slug" = Some (VStr slug)
             /\ d' !! "url"
                = Some (VStr (OsPath.posix_join (fold_left OsPath.posix_join cl "/")
                                (slug ++ ".html")))
       end.
Proof.
  intros H.
  apply normalize_inv in H as (slug & a & cl & tl & Hs & _ & _ & _ & ->).
  eexists. split; [reflexivity|]. rewrite final_url.
  destruct (d !! "url") as [v|]; [reflexivity|].
  exists cl, slug. rewrite final_category, final_slug by exact Hs. now repeat split.
Qed.

Lemma url_derived_or_kept_witness :
  exists d',
    VDict (final Posix 0 "a.txt" {["category" := VStr "blog/2011"]} "a"
             (VAuthor Page.Author.empty) ["blog"; "2011"] []) = VDict d'
    /\ d' !! "url" = Some (VStr "/blog/2011/a.html").
Proof.
  assert (Page.normalize Posix 0 "a.txt" (VDict {["category" := VStr "blog/2011"]})
          = Return (VDict (final Posix 0 "a.txt" {["category" := VStr "blog/2011"]} "a"
                             (VAuthor Page.Author.empty) ["blog"; "2011"] []))) as H
    by (vm_compute; reflexivity).
  destruct (url_derived_or_kept 0 "a.txt" {["category" := VStr "blog/2011"]} _ H)
    as (d' & E & cl & slug & Hc & Hs & Hu).
  exists d'. split; [exact E|]. injection E as <-. reflexivity.
Defined.

(** The header that holds [title: Hi] alone, on either host. *)
Lemma title_only_header (h : host) (now : Z) (fname : string) :
  exists d',
    Page.normalize h now fname (VDict {["title" := VStr "Hi"]}) = Return (VDict d')
    /\ d' !! "title" = Some (VStr "Hi")
    /\ d' !! "slug" = Some (VStr "hi")
    /\ d' !! "url" = Some (VStr "/hi.html").
Proof.
  destruct h; (eexists; split; [vm_compute; reflexivity|]); repeat split; reflexivity.
Qed.

(** C8, on the code: the url is joined with [os.path.join], which is
    [ntpath.join] on a Windows host; with one category the url has a
    backslash before the file name. *)
Theorem url_on_windows_host (now : Z) :
  exists d',
    Page.normalize Nt now "a.txt"
      (VDict (<["title" := VStr "Hi"]> {["category" := VStr "blog"]}))
    = Return (VDict d')
    /\ d' !! "category" = Some (VList [VStr "blog"])
    /\ d' !! "slug" = Some (VStr "hi")
    /\ d' !! "url" = Some (VStr (String.append "/blog" (String OsPath.backslash "hi.html"))).
Proof.
  eexists. split; [vm_compute; reflexivity|]. repeat split; reflexivity.
Qed.

(* ===================================================================== *)
(** ** Writing *)
(* ===================================================================== *)

(** C9, on the code: whatever [OSError] [os.makedirs] raises, [write] goes
    on to open the file as if the directory had been made; the error never
    reaches the caller, be it [EEXIST] (already exists) or [EACCES]
    (permission denied). *)
Theorem write_swallows_makedirs_error {S} (os : os_ops S) (depth : nat) (h : host)
    (self : Page) (fs fs' : S) (p : string) (e : errno) :
  Page.write_path depth self = Return p ->
  makedirs os (OsPath.dirname h p) fs = (Raise (OSError e), fs') ->
  Page.write os depth h self fs = Page.write_file os depth self p fs'.
Proof.
  intros Hp Hm. unfold Page.write. now rewrite Hp, Hm.
Qed.

Lemma write_swallows_makedirs_error_witness :
  disk_makedirs "./blog" denied_disk = (Raise (OSError EACCES), denied_disk)
  /\ Page.write (disk_os Posix) 1000 Posix written_page denied_disk
     = (Raise (IOError ENOENT), denied_disk).
Proof.
  split; [reflexivity|].
  exact (write_swallows_makedirs_error (disk_os Posix) 1000 Posix written_page
           denied_disk denied_disk "./blog/hi.html" EACCES eq_refl eq_refl).
Defined.

(** With the directory in place, [os.makedirs] raises [EEXIST] and the
    page is written. *)
Lemma write_into_existing_directory :
  disk_makedirs "./blog" blog_disk = (Raise (OSError EEXIST), blog_disk)
  /\ Page.write (disk_os Posix) 1000 Posix written_page blog_disk
     = (Return tt,
        mkDisk ["./blog"; "."] []
          [("./blog/hi.html", "<p>Hello</p>"); ("./blog/hi.html", "")]).
Proof. split; reflexivity. Qed.

(* ===================================================================== *)
(** ** Rendering *)
(* ===================================================================== *)

Lemma template_vars_page (self : Page) (tv : option (gmap string tvalue)) :
  Page.template_vars self tv !! "page" = Some (TPage self).
Proof.
  unfold Page.template_vars. apply lookup_insert_eq.
Qed.

Lemma template_vars_other (self : Page) (tv : option (gmap string tvalue)) (k : string) :
  k <> "page" -> Page.template_vars self tv !! k = default ∅ tv !! k.
Proof.
  intros Hk. unfold Page.template_vars. rewrite lookup_insert_ne by congruence.
  destruct tv as [m|]; simpl; [|reflexivity].
  destruct (decide (m = ∅)) as [->|]; reflexivity.
Qed.

(** C10: when [render] returns, the html it stored is what the template
    returned for the mapping [template_vars]; in that mapping [page] is the
    page itself, whatever the caller put under that key, and every other
    key is the caller's. *)
Theorem render_installs_page (depth : nat)
    (get_template : string -> result (gmap string tvalue -> result string))
    (self self' : Page) (tv : option (gmap string tvalue)) :
  Page.render depth get_template self tv = Return self' ->
  exists tname template x,
    get_template tname = Return template
    /\ template (Page.template_vars self tv) = Return x
    /\ self' = set_html x self
    /\ Page.template_vars self tv !! "page" = Some (TPage self)
    /\ forall k, k <> "page" -> Page.template_vars self tv !! k = default ∅ tv !! k.
Proof.
  unfold Page.render. intros H.
  inv_bind H. rename a into type.
  inv_bind H. rename a into template. rename Ha0 into Ht.
  inv_bind H. rename a into x. rename Ha0 into Hx.
  injection H as <-.
  inv_bind Ht. rename a into tname.
  exists tname, template, x. repeat split; auto.
  - apply template_vars_page.
  - intros k Hk. now apply template_vars_other.
Qed.

Lemma render_installs_page_witness :
  exists x,
    Page.render 1000 (fun _ => Return show_page) hi_page
      (Some {["page" := TVal (VStr "not the page")]})
    = Return (set_html x hi_page)
    /\ x = "page: Hi".
Proof.
  assert (Page.render 1000 (fun _ => Return show_page) hi_page
            (Some {["page" := TVal (VStr "not the page")]})
          = Return (set_html "page: Hi" hi_page)) as H
    by (vm_compute; reflexivity).
  destruct (render_installs_page 1000 (fun _ => Return show_page) hi_page _ _ H)
    as (tname & template & x & Ht & Hx & E & _).
  exists "page: Hi". split; reflexivity.
Defined.

(* ===================================================================== *)
(** ** Further properties of the normalised record *)
(* ===================================================================== *)

(** A header without a title gets the file name without its last
    extension, or the whole file name when that is empty. *)
Theorem title_from_filename (h : host) (now : Z) (fname : string)
    (d : gmap string value) (m : value) :
  d !! "title" = None ->
  Page.normalize h now fname (VDict d) = Return m ->
  exists d',
    m = VDict d'
    /\ d' !! "title"
       = Some (VStr (if String.eqb (Str.join "." (removelast (Str.split "."%char fname))) ""
                     then fname
                     else Str.join "." (removelast (Str.split "."%char fname)))).
Proof.
  intros Hn H.
  apply normalize_inv in H as (slug & a & cl & tl & _ & _ & _ & _ & ->).
  eexists. split; [reflexivity|].
  rewrite final_title_eq. unfold title_upd. rewrite Hn.
  now rewrite lookup_insert_eq.
Qed.

Lemma title_from_filename_witness :
  exists d',
    VDict (final Posix 0 "notes.tar.gz" ∅ "notes-tar" (VAuthor Page.Author.empty) [] [])
    = VDict d'
    /\ d' !! "title" = Some (VStr "notes.tar").
Proof.
  assert (Page.normalize Posix 0 "notes.tar.gz" (VDict ∅)
          = Return (VDict (final Posix 0 "notes.tar.gz" ∅ "notes-tar"
                             (VAuthor Page.Author.empty) [] []))) as H
    by (vm_compute; reflexivity).
  assert ((∅ : gmap string value) !! "title" = None) as Hn by reflexivity.
  destruct (title_from_filename Posix 0 "notes.tar.gz" ∅ _ Hn H) as (d' & E & Ht).
  exists d'. split; [exact E|exact Ht].
Defined.

(** The derived title of a dot file and of a name without a dot is the
    whole name. *)
Lemma derived_title_examples :
  derived_title ".bashrc" = ".bashrc"
  /\ derived_title "README" = "README"
  /\ derived_title "post.md" = "post".
Proof. repeat split; reflexivity. Qed.

(** X3: the timestamp of a normalised record: [date] when the header has it,
    else [time], else the header's own [datetime], else the clock. *)
Theorem datetime_alias_order (h : host) (now : Z) (fname : string)
    (d : gmap string value) (m : value) :
  Page.normalize h now fname (VDict d) = Return m ->
  exists d',
    m = VDict d'
    /\ d' !! "datetime"
       = Some (match d !! "date" with
               | Some v => v
               | None => match d !! "time" with
                         | Some v => v
                         | None => match d !! "datetime" with
                                   | Some v => v
                                   | None => VDatetime now
                                   end
                         end
               end).
Proof.
  intros H.
  apply normalize_inv in H as (slug & a & cl & tl & _ & _ & _ & _ & ->).
  eexists. split; [reflexivity|]. apply final_datetime.
Qed.

Lemma datetime_alias_order_witness :
  exists d',
    VDict (final Posix 7 "a.txt" (<["time" := VDatetime 1]> {["date" := VDatetime 2]}) "a"
             (VAuthor Page.Author.empty) [] []) = VDict d'
    /\ d' !! "datetime" = Some (VDatetime 2).
Proof.
  assert (Page.normalize Posix 7 "a.txt"
            (VDict (<["time" := VDatetime 1]> {["date" := VDatetime 2]}))
          = Return (VDict (final Posix 7 "a.txt"
                             (<["time" := VDatetime 1]> {["date" := VDatetime 2]}) "a"
                             (VAuthor Page.Author.empty) [] []))) as H
    by (vm_compute; reflexivity).
  destruct (datetime_alias_order Posix 7 "a.txt" _ _ H) as (d' & E & Ht).
  exists d'. split; [exact E|exact Ht].
Defined.

(** X4: every key that [build_meta] promises is present in a normalised
    record; the category and the tags are lists of strings; and the author
    is the empty author when the header names none, [None] when the
    header names one. *)
Theorem normalized_keys_present (h : host) (now : Z) (fname : string)
    (d : gmap string value) (m : value) :
  Page.normalize h now fname (VDict d) = Return m ->
  exists d' cl tl,
    m = VDict d'
    /\ is_Some (d' !! "title")
    /\ is_Some (d' !! "slug")
    /\ d' !! "author"
       = Some (match d !! "author" with
               | None => VAuthor Page.Author.empty
               | Some _ => VNone
               end)
    /\ d' !! "category" = Some (VList (map VStr cl))
    /\ is_Some (d' !! "published")
    /\ is_Some (d' !! "datetime")
    /\ d' !! "tags" = Some (VList (map VStr tl))
    /\ is_Some (d' !! "url").
Proof.
  intros H.
  apply normalize_inv in H as (slug & a & cl & tl & Hs & Ha & _ & _ & ->).
  exists (final h now fname d slug a cl tl), cl, tl.
  split; [reflexivity|].
  split; [apply final_title|].
  split; [rewrite (final_slug _ _ _ _ _ _ _ _ Hs); eauto|].
  split.
  { rewrite final_author.
    destruct Ha as [(Hn & ->) | (s & au & Hn & _ & ->)]; now rewrite Hn. }
  split; [apply final_category|].
  split; [apply final_published|].
  split; [rewrite final_datetime; eauto|].
  split; [apply final_tags|].
  rewrite final_url. eauto.
Qed.

Lemma normalized_keys_present_witness :
  (exists d',
     VDict (final Posix 0 "a.txt" {["author" := VStr "Jane Doe <jane@example.com>"]} "a"
              VNone [] []) = VDict d'
     /\ d' !! "author" = Some VNone
     /\ is_Some (d' !! "url"))
  /\ (exists d',
        VDict (final Posix 0 "a.txt" ∅ "a" (VAuthor Page.Author.empty) [] []) = VDict d'
        /\ d' !! "author" = Some (VAuthor Page.Author.empty)
        /\ is_Some (d' !! "url")).
Proof.
  assert (Page.normalize Posix 0 "a.txt"
            (VDict {["author" := VStr "Jane Doe <jane@example.com>"]})
          = Return (VDict (final Posix 0 "a.txt"
                             {["author" := VStr "Jane Doe <jane@example.com>"]} "a"
                             VNone [] []))) as H1
    by (vm_compute; reflexivity).
  assert (Page.normalize Posix 0 "a.txt" (VDict ∅)
          = Return (VDict (final Posix 0 "a.txt" ∅ "a" (VAuthor Page.Author.empty) [] [])))
    as H2 by (vm_compute; reflexivity).
  split.
  - destruct (normalized_keys_present Posix 0 "a.txt" _ _ H1)
      as (d' & cl & tl & E & _ & _ & Ha & _ & _ & _ & _ & Hu).
    exists d'. split; [exact E|]. split; [exact Ha|exact Hu].
  - destruct (normalized_keys_present Posix 0 "a.txt" _ _ H2)
      as (d' & cl & tl & E & _ & _ & Ha & _ & _ & _ & _ & Hu).
    exists d'. split; [exact E|]. split; [exact Ha|exact Hu].
Defined.

(** X5: keys that [build_meta] does not know stay as the header has them. *)
Theorem other_keys_untouched (h : host) (now : Z) (fname : string)
    (d : gmap string value) (m : value) (k : string) :
  Page.normalize h now fname (VDict d) = Return m ->
  k <> "title" -> k <> "slug" -> k <> "author" -> k <> "category" ->
  k <> "published" -> k <> "datetime" -> k <> "tags" -> k <> "url" ->
  exists d', m = VDict d' /\ d' !! k = d !! k.
Proof.
  intros H. intros.
  apply normalize_inv in H as (slug & a & cl & tl & _ & _ & _ & _ & ->).
  eexists. split; [reflexivity|]. now apply final_other.
Qed.

Lemma other_keys_untouched_witness :
  exists d',
    VDict (final Posix 0 "a.txt" {["type" := VStr "post"]} "a"
             (VAuthor Page.Author.empty) [] []) = VDict d'
    /\ d' !! "type" = Some (VStr "post").
Proof.
  assert (Page.normalize Posix 0 "a.txt" (VDict {["type" := VStr "post"]})
          = Return (VDict (final Posix 0 "a.txt" {["type" := VStr "post"]} "a"
                             (VAuthor Page.Author.empty) [] []))) as H
    by (vm_compute; reflexivity).
  destruct (other_keys_untouched Posix 0 "a.txt" _ _ "type" H) as (d' & E & Hk);
    try discriminate.
  exists d'. split; [exact E|exact Hk].
Defined.

(** The string form of an author: [name <email>] when both are non-empty,
    the name when only it is, the raw string otherwise. *)
Theorem author_str_order (a : Author) :
  Page.Author.__str__ a
  = match name a, email a with
    | Some (String c n), Some (String c' e) =>
        String c n ++ " <" ++ String c' e ++ ">"
    | Some (String c n), _ => String c n
    | _, _ => raw a
    end.
Proof.
  destruct a as [r [[|c n]|] [[|c' e]|]]; reflexivity.
Qed.

(** X7: the hook [__getattr__], which Python calls for a name that is
    not an attribute of the page object nor of its class.  When the
    metadata is a dictionary, the hook returns the value under that name,
    or [None] when the dictionary has no such key; it does not raise. *)
Theorem getattr_forwards_meta (depth : nat) (self : Page) (d : gmap string value)
    (k : string) :
  meta self = Some (VDict d) ->
  Page.__getattr__ depth self k = Return (default VNone (d !! k)).
Proof.
  intros Hm. rewrite (getattr_set _ _ _ _ Hm).
  unfold Page.lookup_meta. simpl. destruct (d !! k); reflexivity.
Qed.

Lemma getattr_forwards_meta_witness :
  Page.__getattr__ 1000 hi_page "title" = Return (VStr "Hi")
  /\ Page.__getattr__ 1000 hi_page "subtitle" = Return VNone.
Proof.
  split.
  - exact (getattr_forwards_meta 1000 hi_page {["title" := VStr "Hi"]} "title" eq_refl).
  - exact (getattr_forwards_meta 1000 hi_page {["title" := VStr "Hi"]} "subtitle" eq_refl).
Defined.

(* ===================================================================== *)
(** ** An empty header *)
(* ===================================================================== *)

Lemma build_meta_none_header (depth : nat) (h : host) (now : Z) (self : Page) :
  meta self = Some VNone ->
  Page.build_meta depth h now self
  = (m <- Page.normalize h now (filename self) (VDict ∅);;
     Return (set_meta m (set_meta (VDict ∅) self))).
Proof.
  intros Hm. unfold Page.build_meta, Page.self_meta. rewrite Hm. reflexivity.
Qed.

Lemma final_published_eq (h : host) (now : Z) (fname : string) (d : gmap string value)
    (slug : string) (a : value) (cl tl : list string) :
  final h now fname d slug a cl tl !! "published"
  = Some (default (VBool true) (d !! "published")).
Proof.
  unfold final.
  destruct (d !! "url"), (d !! "slug"); lk; unfold published_upd; lk;
    destruct (d !! "published") as [pv|] eqn:E; lk; now rewrite ?E.
Qed.

Lemma empty_header_final (h : host) (now : Z) (fname : string) :
  Page.normalize h now fname (VDict ∅)
  = Return (VDict (final h now fname ∅ (Util.slugify_str (derived_title fname))
                     (VAuthor Page.Author.empty) [] [])).
Proof.
  apply normalize_ok.
  - right. split; [reflexivity|]. exists (derived_title fname). split; reflexivity.
  - left. split; reflexivity.
  - left. split; reflexivity.
  - left. split; reflexivity.
Qed.

(** X11: a header that [yaml.load] reads as [None] (an empty header
    before the [---]) is normalised as the empty mapping, and every field
    gets its default: the title from the file name, the slug from the
    title, the empty author, no category, published, the current time, no
    tags, and the url [/slug.html]. *)
Theorem empty_header_defaults (depth : nat) (h : host) (now : Z) (self : Page) :
  meta self = Some VNone ->
  exists d',
    Page.build_meta depth h now self = Return (set_meta (VDict d') (set_meta (VDict ∅) self))
    /\ d' !! "title" = Some (VStr (derived_title (filename self)))
    /\ d' !! "slug" = Some (VStr (Util.slugify_str (derived_title (filename self))))
    /\ d' !! "author" = Some (VAuthor Page.Author.empty)
    /\ d' !! "category" = Some (VList [])
    /\ d' !! "published" = Some (VBool true)
    /\ d' !! "datetime" = Some (VDatetime now)
    /\ d' !! "tags" = Some (VList [])
    /\ d' !! "url"
       = Some (VStr (OsPath.join h "/"
                       (Util.slugify_str (derived_title (filename self)) ++ ".html"))).
Proof.
  intros Hm. rewrite (build_meta_none_header _ _ _ _ Hm), empty_header_final.
  eexists. split; [reflexivity|].
  split; [rewrite final_title_eq; unfold title_upd; now rewrite lookup_empty, lookup_insert_eq|].
  split; [apply final_slug; right; split;
          [reflexivity|exists (derived_title (filename self)); split; reflexivity]|].
  split; [apply final_author|].
  split; [apply final_category|].
  split; [now rewrite final_published_eq, lookup_empty|].
  split; [now rewrite final_datetime, !lookup_empty|].
  split; [apply final_tags|].
  now rewrite final_url, lookup_empty.
Qed.

Lemma empty_header_defaults_witness :
  exists d',
    Page.build_meta 1000 Posix 42 (page_of "My Post.md" VNone)
    = Return (set_meta (VDict d') (set_meta (VDict ∅) (page_of "My Post.md" VNone)))
    /\ d' !! "title" = Some (VStr "My Post")
    /\ d' !! "slug" = Some (VStr "my-post")
    /\ d' !! "datetime" = Some (VDatetime 42)
    /\ d' !! "url" = Some (VStr "/my-post.html").
Proof.
  destruct (empty_header_defaults 1000 Posix 42 (page_of "My Post.md" VNone) eq_refl)
    as (d' & E & Ht & Hs & _ & _ & _ & Hd & _ & Hu).
  exists d'. repeat split; assumption.
Defined.

(* ===================================================================== *)
(** ** The Python primitives on examples *)
(* ===================================================================== *)

Example split_keeps_empty_pieces :
  Str.split "."%char "a.tar.gz" = ["a"; "tar"; "gz"]
  /\ Str.split ","%char "a,,b," = ["a"; ""; "b"; ""]
  /\ Str.split "/"%char "" = [""].
Proof. repeat split; reflexivity. Qed.

Example split1_splits_once :
  Str.split1 "---" "title: Hi---Hello---bye" = ["title: Hi"; "Hello---bye"]
  /\ Str.split1 "---" "Hello" = ["Hello"].
Proof. split; reflexivity. Qed.

Example strip_trims_both_ends :
  Str.strip "  a b  " = "a b" /\ Str.strip "   " = "".
Proof. split; reflexivity. Qed.

Example posix_join_examples :
  OsPath.posix_join "/" "blog" = "/blog"
  /\ OsPath.posix_join "/blog" "2011" = "/blog/2011"
  /\ OsPath.posix_join "/blog" "" = "/blog/"
  /\ OsPath.posix_join "/blog" "/x" = "/x".
Proof. repeat split; reflexivity. Qed.

Example posix_split_examples :
  OsPath.split Posix "content/blog/post.txt" = ("content/blog", "post.txt")
  /\ OsPath.split Posix "post.txt" = ("", "post.txt")
  /\ OsPath.split Posix "/post.txt" = ("/", "post.txt").
Proof. repeat split; reflexivity. Qed.

Example author_pattern_backtracks :
  Page.Author.parse_local (VStr "A  <b@c> <d@e>")
  = Return (mkAuthor "A  <b@c> <d@e>" (Some "A ") (Some "b@c> <d@e"))
  /\ Page.Author.parse_local (VStr "<d@e>") = Raise AttributeError
  /\ Page.Author.parse_local (VStr "Jane <jane at example.com>") = Raise AttributeError.
Proof. repeat split; reflexivity. Qed.

Example slugify_examples :
  Util.slugify_str "Hi" = "hi"
  /\ Util.slugify_str "  Hello,  World! " = "hello-world"
  /\ Util.slugify_str "--" = "".
Proof. repeat split; reflexivity. Qed.

(* ===================================================================== *)
(** ** Strings: appending, splitting and joining *)
(* ===================================================================== *)

Lemma str_app_assoc (a b c : string) : (a ++ b) ++ c = a ++ b ++ c.
Proof.
  induction a as [|x a IH]; [reflexivity|].
  rewrite !app_String. now rewrite IH.
Qed.

Lemma str_app_nil_r (a : string) : a ++ "" = a.
Proof.
  induction a as [|x a IH]; [reflexivity|]. rewrite app_String. now rewrite IH.
Qed.

Lemma not_occurs_char_cons (sep c : ascii) (r : string) :
  ~ occurs (String sep "") (String c r) -> c <> sep /\ ~ occurs (String sep "") r.
Proof.
  intros H. split.
  - intros ->. apply H. now exists "", r.
  - intros (a & b & ->). apply H. now exists (String c a), b.
Qed.

Lemma not_occurs_char_app (sep : ascii) (a b : string) :
  ~ occurs (String sep "") a -> ~ occurs (String sep "") b ->
  ~ occurs (String sep "") (a ++ b).
Proof.
  induction a as [|c a IH]; intros Ha Hb; [exact Hb|].
  rewrite app_String. apply not_occurs_char_cons in Ha as [Hc Ha].
  intros (x & y & E). destruct x as [|c' x].
  - rewrite app_Empty, app_String, app_Empty in E. congruence.
  - rewrite app_String in E. injection E as -> E.
    apply (IH Ha Hb). now exists x, y.
Qed.

Lemma split_not_nil (sep : ascii) (s : string) : Str.split sep s <> [].
Proof.
  destruct s as [|c s]; simpl; [discriminate|].
  destruct (Ascii.eqb c sep); [discriminate|].
  destruct (Str.split sep s); discriminate.
Qed.

(** Splitting a string that has a separator at a known place: the pieces
    before it followed by the pieces after it. *)
Lemma split_app (sep : ascii) (a b : string) :
  Str.split sep (a ++ String sep b) = (Str.split sep a ++ Str.split sep b)%list.
Proof.
  induction a as [|c a IH].
  - rewrite app_Empty. simpl. now rewrite Ascii.eqb_refl.
  - rewrite app_String. simpl. destruct (Ascii.eqb c sep); rewrite IH; [reflexivity|].
    destruct (Str.split sep a) as [|h t] eqn:E; [|reflexivity].
    now apply split_not_nil in E.
Qed.

Lemma split_without_sep (sep : ascii) (s : string) :
  ~ occurs (String sep "") s -> Str.split sep s = [s].
Proof.
  induction s as [|c s IH]; intros H; [reflexivity|].
  apply not_occurs_char_cons in H as [Hc Hs]. simpl.
  destruct (Ascii.eqb_spec c sep); [contradiction|].
  now rewrite IH.
Qed.

Lemma split_pieces_without_sep (sep : ascii) (s : string) :
  Forall (fun p => ~ occurs (String sep "") p) (Str.split sep s).
Proof.
  induction s as [|c s IH]; simpl.
  - constructor; [|constructor]. intros (a & b & E). now destruct a.
  - destruct (Ascii.eqb_spec c sep) as [->|Hc].
    + constructor; [|exact IH]. intros (a & b & E). now destruct a.
    + destruct (Str.split sep s) as [|h t] eqn:Es; [now apply split_not_nil in Es|].
      inversion IH as [|? ? Hh Ht]; subst. constructor; [|exact Ht].
      intros (a & b & E). destruct a as [|x a].
      * rewrite app_Empty, app_String in E. congruence.
      * rewrite app_String in E. injection E as -> E. apply Hh. now exists a, b.
Qed.

(** Joining the pieces with the separator gives the string back. *)
Lemma join_split (sep : ascii) (s : string) :
  Str.join (String sep "") (Str.split sep s) = s.
Proof.
  unfold Str.join. induction s as [|c s IH]; [reflexivity|]. simpl.
  destruct (Ascii.eqb_spec c sep) as [->|Hc].
  - destruct (Str.split sep s) as [|h t] eqn:E; [now apply split_not_nil in E|].
    simpl in *. rewrite app_Empty, app_String, app_Empty. now rewrite IH.
  - destruct (Str.split sep s) as [|h t] eqn:E; [now apply split_not_nil in E|].
    simpl in *. destruct t as [|h' t'].
    + now rewrite IH.
    + rewrite app_String. now rewrite IH.
Qed.

Lemma first_app (a b : string) :
  Str.first (a ++ b) = match Str.first a with Some c => Some c | None => Str.first b end.
Proof. destruct a; reflexivity. Qed.

Lemma last_is_Some (p : string) : p <> "" -> exists c, Str.last p = Some c.
Proof.
  induction p as [|x p IH]; [congruence|]. intros _. simpl.
  destruct p as [|y p]; [eauto|]. apply IH. discriminate.
Qed.

Lemma last_app (a b : string) :
  Str.last (a ++ b) = match Str.last b with Some c => Some c | None => Str.last a end.
Proof.
  induction a as [|x a IH].
  - rewrite app_Empty. now destruct (Str.last b).
  - destruct a as [|y a].
    + rewrite app_String, app_Empty. destruct b as [|z b]; [reflexivity|].
      destruct (last_is_Some (String z b)) as (c & Hc); [discriminate|].
      change (Str.last (String x (String z b))) with (Str.last (String z b)).
      now rewrite Hc.
    + rewrite app_String.
      change (Str.last (String x (String y a ++ b))) with (Str.last (String y a ++ b)).
      exact IH.
Qed.

Lemma first_without_sep (sep : ascii) (p : string) :
  ~ occurs (String sep "") p -> Str.first p <> Some sep.
Proof.
  destruct p as [|c p]; [discriminate|]. intros H.
  apply not_occurs_char_cons in H as [Hc _]. simpl. congruence.
Qed.

Lemma last_without_sep (sep : ascii) (p : string) :
  ~ occurs (String sep "") p -> Str.last p <> Some sep.
Proof.
  induction p as [|c p IH]; [discriminate|]. intros H.
  apply not_occurs_char_cons in H as [Hc Hp]. simpl.
  destruct p; [congruence|]. now apply IH.
Qed.

(* ===================================================================== *)
(** ** [posixpath.join] over the category segments *)
(* ===================================================================== *)

Lemma posix_join_rel (a x : string) (c : ascii) :
  Str.first x <> Some OsPath.slash -> Str.last a = Some c ->
  OsPath.posix_join a x
  = if Ascii.eqb c OsPath.slash then a ++ x else a ++ "/" ++ x.
Proof.
  intros Hx Ha. unfold OsPath.posix_join. rewrite Ha.
  destruct (Str.first x) as [y|].
  - destruct (Ascii.eqb_spec y OsPath.slash); [congruence|].
    destruct a; [discriminate|]. reflexivity.
  - destruct a; [discriminate|]. reflexivity.
Qed.

Lemma dir_of_app (l1 l2 : list string) :
  dir_of (l1 ++ l2)%list = dir_of l1 ++ dir_of l2.
Proof.
  induction l1 as [|p l1 IH]; [reflexivity|].
  change (dir_of ((p :: l1) ++ l2)%list) with (p ++ "/" ++ dir_of (l1 ++ l2)%list).
  change (dir_of (p :: l1)) with (p ++ "/" ++ dir_of l1).
  now rewrite IH, !str_app_assoc.
Qed.

Lemma last_dir_of (l : list string) : Str.last ("/" ++ dir_of l) = Some OsPath.slash.
Proof.
  induction l as [|p l IH]; [reflexivity|].
  change (dir_of (p :: l)) with (p ++ "/" ++ dir_of l).
  rewrite (last_app "/"), (last_app p), IH. reflexivity.
Qed.

(** Joining the segments one by one onto [/]: the empty segments leave
    no trace, and what is joined next lands right after the slash of the
    last segment kept. *)
Lemma posix_fold_segments (ps : list string) :
  forall (acc : string) (l : list string),
    Forall (fun p => ~ occurs "/" p) ps ->
    (forall x, Str.first x <> Some OsPath.slash ->
               OsPath.posix_join acc x = "/" ++ dir_of l ++ x) ->
    forall x, Str.first x <> Some OsPath.slash ->
              OsPath.posix_join (fold_left OsPath.posix_join ps acc) x
              = "/" ++ dir_of (l ++ List.filter nonempty ps)%list ++ x.
Proof.
  induction ps as [|p ps IH]; intros acc l Hps Hacc x Hx; simpl.
  - rewrite app_nil_r. now apply Hacc.
  - inversion Hps as [|? ? Hp Hps']; subst.
    assert (Str.first p <> Some OsPath.slash) as Hfp by now apply first_without_sep.
    rewrite (Hacc p Hfp).
    unfold nonempty at 1. destruct (String.eqb_spec p "") as [->|Hne]; cbn [negb].
    + apply (IH _ l Hps'); [|exact Hx].
      intros y Hy. rewrite str_app_nil_r.
      rewrite (posix_join_rel _ y OsPath.slash Hy (last_dir_of l)).
      simpl. now rewrite !str_app_assoc.
    + replace (l ++ p :: List.filter nonempty ps)%list
        with ((l ++ [p]) ++ List.filter nonempty ps)%list by now rewrite <- app_assoc.
      apply (IH _ (l ++ [p])%list Hps'); [|exact Hx].
      intros y Hy. destruct (last_is_Some p Hne) as (c & Hc).
      assert (Str.last ("/" ++ dir_of l ++ p) = Some c) as Hl
        by now rewrite !last_app, Hc.
      rewrite (posix_join_rel _ y c Hy Hl).
      destruct (Ascii.eqb_spec c OsPath.slash) as [->|_].
      * now apply (last_without_sep "/"%char) in Hp.
      * rewrite dir_of_app. simpl. now rewrite !str_app_assoc.
Qed.

Lemma posix_url_of (cl : list string) (slug : string) :
  Forall (fun p => ~ occurs "/" p) cl ->
  Str.first slug <> Some OsPath.slash ->
  url_of Posix cl slug = "/" ++ dir_of (List.filter nonempty cl) ++ slug ++ ".html".
Proof.
  intros Hcl Hs. unfold url_of.
  change (OsPath.join Posix) with OsPath.posix_join.
  apply (posix_fold_segments cl "/" [] Hcl).
  - intros x Hx. now rewrite (posix_join_rel "/" x OsPath.slash Hx eq_refl).
  - rewrite first_app. destruct (Str.first slug); [exact Hs|discriminate].
Qed.

Lemma category_ok_segments (d : gmap string value) (cl : list string) :
  category_ok d cl -> Forall (fun p => ~ occurs "/" p) cl.
Proof.
  intros [(_ & ->) | (s & _ & ->)]; [constructor|].
  apply split_pieces_without_sep.
Qed.

(* ===================================================================== *)
(** ** The title and the file name *)
(* ===================================================================== *)

Lemma derived_title_without_dot (fname : string) :
  ~ occurs "." fname -> derived_title fname = fname.
Proof.
  intros H. unfold derived_title. now rewrite split_without_sep.
Qed.

Lemma derived_title_with_ext (base ext : string) :
  ~ occurs "." ext ->
  derived_title (base ++ "." ++ ext)
  = if String.eqb base "" then base ++ "." ++ ext else base.
Proof.
  intros H. unfold derived_title.
  change ("." ++ ext) with (String "."%char ext).
  rewrite split_app, (split_without_sep _ ext H), removelast_last.
  now rewrite (join_split "."%char base).
Qed.

(** X2: for a header without a title, the title is the file name up to
    its last dot: a name without a dot is the title as it is, and a name
    [base.ext] gives [base], or the whole name when [base] is empty. *)
Theorem title_strips_last_extension (h : host) (now : Z) (fname : string)
    (d : gmap string value) (m : value) :
  d !! "title" = None ->
  Page.normalize h now fname (VDict d) = Return m ->
  exists d' t,
    m = VDict d' /\ d' !! "title" = Some (VStr t)
    /\ (~ occurs "." fname -> t = fname)
    /\ forall base ext,
         fname = base ++ "." ++ ext -> ~ occurs "." ext ->
         t = if String.eqb base "" then fname else base.
Proof.
  intros Hn H.
  apply normalize_inv in H as (slug & a & cl & tl & _ & _ & _ & _ & ->).
  exists (final h now fname d slug a cl tl), (derived_title fname).
  split; [reflexivity|]. split.
  { rewrite final_title_eq. unfold title_upd. rewrite Hn. apply lookup_insert_eq. }
  split; [apply derived_title_without_dot|].
  intros base ext -> Hext. now apply derived_title_with_ext.
Qed.

Lemma title_strips_last_extension_witness :
  exists d',
    VDict (final Posix 0 "notes.tar.gz" ∅ "notes-tar" (VAuthor Page.Author.empty) [] [])
    = VDict d'
    /\ d' !! "title" = Some (VStr "notes.tar").
Proof.
  assert (Page.normalize Posix 0 "notes.tar.gz" (VDict ∅)
          = Return (VDict (final Posix 0 "notes.tar.gz" ∅ "notes-tar"
                             (VAuthor Page.Author.empty) [] []))) as H
    by (vm_compute; reflexivity).
  assert ((∅ : gmap string value) !! "title" = None) as Hn by reflexivity.
  destruct (title_strips_last_extension Posix 0 "notes.tar.gz" ∅ _ Hn H)
    as (d' & t & E & Ht & _ & Hext).
  exists d'. split; [exact E|]. rewrite Ht.
  rewrite (Hext "notes.tar" "gz" eq_refl); [reflexivity|].
  apply find_None_iff. reflexivity.
Defined.

(* ===================================================================== *)
(** ** The category *)
(* ===================================================================== *)

(** X6: the category of a normalised record is the list of the pieces of
    the header's string between slashes: no piece has a slash, and the
    pieces joined by slashes are the header's string again.  A header
    without a category gives the empty list, and no other kind of value is
    normalised. *)
Theorem category_split_on_slash (h : host) (now : Z) (fname : string)
    (d : gmap string value) (m : value) :
  Page.normalize h now fname (VDict d) = Return m ->
  exists d' cl,
    m = VDict d'
    /\ d' !! "category" = Some (VList (map VStr cl))
    /\ Forall (fun p => ~ occurs "/" p) cl
    /\ match d !! "category" with
       | None => cl = []
       | Some v => cl <> [] /\ v = VStr (Str.join "/" cl)
       end.
Proof.
  intros H.
  apply normalize_inv in H as (slug & a & cl & tl & _ & _ & Hc & _ & ->).
  exists (final h now fname d slug a cl tl), cl.
  split; [reflexivity|]. split; [apply final_category|].
  split; [eapply category_ok_segments, Hc|].
  destruct Hc as [(Hn & ->) | (s & Hn & ->)]; rewrite Hn; [reflexivity|].
  split; [apply split_not_nil|]. now rewrite (join_split "/"%char s).
Qed.

Lemma category_split_on_slash_witness :
  exists d',
    VDict (final Posix 0 "a.txt" {["category" := VStr "blog//2011"]} "a"
             (VAuthor Page.Author.empty) ["blog"; ""; "2011"] []) = VDict d'
    /\ d' !! "category" = Some (VList [VStr "blog"; VStr ""; VStr "2011"]).
Proof.
  assert (Page.normalize Posix 0 "a.txt" (VDict {["category" := VStr "blog//2011"]})
          = Return (VDict (final Posix 0 "a.txt" {["category" := VStr "blog//2011"]} "a"
                             (VAuthor Page.Author.empty) ["blog"; ""; "2011"] []))) as H
    by (vm_compute; reflexivity).
  destruct (category_split_on_slash Posix 0 "a.txt" _ _ H) as (d' & cl & E & Hc & _).
  exists d'. split; [exact E|]. injection E as <-. reflexivity.
Defined.

(** X9: the category step never returns anything but a dictionary whose
    category is a list of strings; its last statement, which assigns the
    empty list to the whole of [self.meta] when the category is [None], is
    never executed. *)
Theorem category_step_returns_dict (m m' : value) :
  Page.norm_category m = Return m' ->
  exists d' cl, m' = VDict d' /\ d' !! "category" = Some (VList (map VStr cl)).
Proof.
  intros H. destruct m; try discriminate.
  - unfold Page.norm_category in H. simpl in H.
    destruct (Str.contains "category" s); discriminate.
  - unfold Page.norm_category in H. simpl in H.
    destruct (existsb _ l); discriminate.
  - apply norm_category_inv in H as (cl & -> & _).
    exists (<["category" := VList (map VStr cl)]> d), cl.
    split; [reflexivity|apply lookup_insert_eq].
Qed.

Lemma category_step_returns_dict_witness :
  exists d' cl,
    VDict (<["category" := VList [VStr "a"; VStr "b"]]> {["category" := VStr "a/b"]})
    = VDict d'
    /\ d' !! "category" = Some (VList (map VStr cl)).
Proof.
  exact (category_step_returns_dict (VDict {["category" := VStr "a/b"]}) _ eq_refl).
Defined.

(* ===================================================================== *)
(** ** The url on a POSIX host *)
(* ===================================================================== *)

(** X10: on a POSIX host, the url derived for a header without one is a
    slash, every non-empty category segment followed by a slash, and
    [slug.html]; empty segments (a doubled, leading or trailing slash in
    the category) leave no trace.  The slug must not begin with a slash. *)
Theorem posix_url_drops_empty_segments (now : Z) (fname : string)
    (d : gmap string value) (m : value) :
  d !! "url" = None ->
  Page.normalize Posix now fname (VDict d) = Return m ->
  exists d' cl slug,
    m = VDict d'
    /\ d' !! "category" = Some (VList (map VStr cl))
    /\ d' !! "slug" = Some (VStr slug)
    /\ (Str.first slug <> Some "/"%char ->
        d' !! "url"
        = Some (VStr ("/" ++ dir_of (List.filter nonempty cl) ++ slug ++ ".html"))).
Proof.
  intros Hu H.
  apply normalize_inv in H as (slug & a & cl & tl & Hs & _ & Hc & _ & ->).
  exists (final Posix now fname d slug a cl tl), cl, slug.
  split; [reflexivity|]. split; [apply final_category|].
  split; [now apply final_slug|].
  intros Hf. rewrite final_url, Hu. do 2 f_equal.
  apply posix_url_of; [eapply category_ok_segments, Hc|exact Hf].
Qed.

Lemma posix_url_drops_empty_segments_witness :
  exists d',
    VDict (final Posix 0 "a.txt" {["category" := VStr "blog//2011/"]} "a"
             (VAuthor Page.Author.empty) ["blog"; ""; "2011"; ""] []) = VDict d'
    /\ d' !! "url" = Some (VStr "/blog/2011/a.html").
Proof.
  assert (Page.normalize Posix 0 "a.txt" (VDict {["category" := VStr "blog//2011/"]})
          = Return (VDict (final Posix 0 "a.txt" {["category" := VStr "blog//2011/"]} "a"
                             (VAuthor Page.Author.empty) ["blog"; ""; "2011"; ""] []))) as H
    by (vm_compute; reflexivity).
  assert (({["category" := VStr "blog//2011/"]} : gmap string value) !! "url" = None) as Hn
    by reflexivity.
  destruct (posix_url_drops_empty_segments 0 "a.txt" _ _ Hn H)
    as (d' & cl & slug & E & Hc & Hs & Hu).
  exists d'. split; [exact E|]. injection E as <-. reflexivity.
Defined.

(* ===================================================================== *)
(** ** The tags are trimmed *)
(* ===================================================================== *)

Lemma lstrip_first (s : string) :
  match Str.first (Str.lstrip s) with
  | Some c => Str.is_space c = false
  | None => True
  end.
Proof.
  induction s as [|c s IH]; simpl; [exact I|].
  destruct (Str.is_space c) eqn:E; [exact IH|]. simpl. exact E.
Qed.

Lemma rstrip_last (s : string) :
  match Str.last (Str.rstrip s) with
  | Some c => Str.is_space c = false
  | None => True
  end.
Proof.
  induction s as [|c s IH]; simpl; [exact I|].
  destruct (Str.rstrip s) as [|y r].
  - destruct (Str.is_space c) eqn:E; simpl; [exact I|exact E].
  - exact IH.
Qed.

Lemma rstrip_first (s : string) :
  Str.first (Str.rstrip s) = None \/ Str.first (Str.rstrip s) = Str.first s.
Proof.
  destruct s as [|c s]; simpl; [now left|].
  destruct (Str.rstrip s); [|now right].
  destruct (Str.is_space c); [now left|now right].
Qed.

Lemma strip_trimmed (s : string) : trimmed (Str.strip s) = true.
Proof.
  unfold trimmed, Str.strip.
  pose proof (rstrip_last (Str.lstrip s)) as Hl.
  pose proof (lstrip_first s) as Hf.
  destruct (rstrip_first (Str.lstrip s)) as [E|E]; rewrite E; simpl.
  - destruct (Str.last _); [now rewrite Hl|reflexivity].
  - destruct (Str.first (Str.lstrip s)); [rewrite Hf|]; simpl;
      (destruct (Str.last _); [now rewrite Hl|reflexivity]).
Qed.

(** X12: the tags of a normalised record are as many as the raw string
    has pieces between commas: no piece is dropped.  When the raw string is
    ASCII text, no tag begins or ends with white space (the characters 9
    to 13 and 28 to 32). *)
Theorem tags_are_trimmed (h : host) (now : Z) (fname : string)
    (d : gmap string value) (m : value) :
  Page.normalize h now fname (VDict d) = Return m ->
  exists d' tl,
    m = VDict d'
    /\ d' !! "tags" = Some (VList (map VStr tl))
    /\ forall s, d !! "tags" = Some (VStr s) ->
                 List.length tl = List.length (Str.split ","%char s)
                 /\ (Str.is_ascii s = true -> Forall (fun t => trimmed t = true) tl).
Proof.
  intros H.
  apply normalize_inv in H as (slug & a & cl & tl & _ & _ & _ & Ht & ->).
  exists (final h now fname d slug a cl tl), tl.
  split; [reflexivity|]. split; [apply final_tags|].
  destruct Ht as [(Hn & ->) | (s & Hn & ->)].
  - intros s Hs. congruence.
  - intros s' Hs'. rewrite Hn in Hs'. injection Hs' as <-. split.
    + unfold tags_of. apply length_map.
    + intros _. unfold tags_of.
      induction (Str.split ","%char s) as [|x l IH]; simpl;
        constructor; [apply strip_trimmed|exact IH].
Qed.

Lemma tags_are_trimmed_witness :
  exists d' tl,
    VDict (final Posix 0 "a.txt" {["tags" := VStr " x y ,, z"]} "a"
             (VAuthor Page.Author.empty) [] ["x y"; ""; "z"]) = VDict d'
    /\ d' !! "tags" = Some (VList (map VStr tl))
    /\ List.length tl = 3
    /\ Forall (fun t => trimmed t = true) tl.
Proof.
  assert (Page.normalize Posix 0 "a.txt" (VDict {["tags" := VStr " x y ,, z"]})
          = Return (VDict (final Posix 0 "a.txt" {["tags" := VStr " x y ,, z"]} "a"
                             (VAuthor Page.Author.empty) [] ["x y"; ""; "z"]))) as H
    by (vm_compute; reflexivity).
  assert (({["tags" := VStr " x y ,, z"]} : gmap string value) !! "tags"
          = Some (VStr " x y ,, z")) as Hl by reflexivity.
  assert (Str.is_ascii " x y ,, z" = true) as Ha by reflexivity.
  destruct (tags_are_trimmed Posix 0 "a.txt" _ _ H) as (d' & tl & E & Ht & Hs).
  destruct (Hs " x y ,, z" Hl) as (Hlen & Hf).
  exists d', tl. split; [exact E|]. split; [exact Ht|].
  split; [exact Hlen|exact (Hf Ha)].
Defined.

(* ===================================================================== *)
(** ** What the header decides *)
(* ===================================================================== *)

(** X13: a title, slug, published flag or url that the header gives is
    the one of the normalised record, unchanged. *)
Theorem explicit_fields_kept (h : host) (now : Z) (fname : string)
    (d : gmap string value) (m : value) (k : string) (v : value) :
  Page.normalize h now fname (VDict d) = Return m ->
  k = "title" \/ k = "slug" \/ k = "published" \/ k = "url" ->
  d !! k = Some v ->
  exists d', m = VDict d' /\ d' !! k = Some v.
Proof.
  intros H Hk Hv.
  apply normalize_inv in H as (slug & a & cl & tl & Hs & _ & _ & _ & ->).
  eexists. split; [reflexivity|].
  destruct Hk as [-> | [-> | [-> | ->]]].
  - rewrite final_title_eq. unfold title_upd. now rewrite Hv.
  - rewrite (final_slug _ _ _ _ _ _ _ _ Hs).
    destruct Hs as [Hs | (Hs & _)]; congruence.
  - now rewrite final_published_eq, Hv.
  - now rewrite final_url, Hv.
Qed.

Lemma explicit_fields_kept_witness :
  exists d',
    VDict (final Posix 0 "a.txt" {["published" := VBool false]} "a"
             (VAuthor Page.Author.empty) [] []) = VDict d'
    /\ d' !! "published" = Some (VBool false).
Proof.
  assert (Page.normalize Posix 0 "a.txt" (VDict {["published" := VBool false]})
          = Return (VDict (final Posix 0 "a.txt" {["published" := VBool false]} "a"
                             (VAuthor Page.Author.empty) [] []))) as H
    by (vm_compute; reflexivity).
  assert (({["published" := VBool false]} : gmap string value) !! "published"
          = Some (VBool false)) as Hv by reflexivity.
  exact (explicit_fields_kept Posix 0 "a.txt" _ _ "published" _ H
           (or_intror (or_intror (or_introl eq_refl))) Hv).
Defined.

Lemma author_loadable_ok (d : gmap string value) :
  author_loadable (d !! "author") = true -> exists a, author_ok d a.
Proof.
  unfold author_loadable, author_ok.
  destruct (d !! "author") as [v|]; [|eauto].
  destruct v; try discriminate.
  destruct (Re.match_ Page.Author.parse_author_regex s) as [caps|] eqn:E;
    [|discriminate].
  intros _. exists VNone. right. exists s.
  unfold Page.Author.parse_local. rewrite E.
  destruct (Re.groups3 caps) as [[g1 g2] g3]. eauto.
Qed.

Lemma author_ok_loadable (d : gmap string value) (a : value) :
  author_ok d a -> author_loadable (d !! "author") = true.
Proof.
  unfold author_loadable.
  intros [(Hn & _) | (s & au & Hn & Hp & _)]; rewrite Hn; [reflexivity|].
  unfold Page.Author.parse_local in Hp.
  destruct (Re.match_ Page.Author.parse_author_regex s); [reflexivity|discriminate].
Qed.

Lemma slug_source_ok_slug_ok (fname : string) (d : gmap string value) :
  slug_source_ok d = true -> exists slug, slug_ok fname d slug.
Proof.
  unfold slug_source_ok, slug_ok, title_upd.
  destruct (d !! "slug") as [v|].
  - destruct v; try discriminate. eauto.
  - destruct (d !! "title") as [t|] eqn:Et.
    + destruct t; try discriminate. intros _. eexists. right. split; [reflexivity|].
      exists s. split; [exact Et|reflexivity].
    + intros _. eexists. right. split; [reflexivity|].
      eexists. split; [apply lookup_insert_eq|reflexivity].
Qed.

(** X14: which headers are normalised.  When the slug, or without a
    slug the title, is a string or missing, [build_meta]'s steps return a
    record exactly when the author is missing or a string that the author
    pattern matches, and the category and the tags are each missing or a
    string. *)
Theorem header_normalised_iff (h : host) (now : Z) (fname : string)
    (d : gmap string value) :
  slug_source_ok d = true ->
  (exists m, Page.normalize h now fname (VDict d) = Return m)
  <-> author_loadable (d !! "author") = true
      /\ str_or_absent (d !! "category") = true
      /\ str_or_absent (d !! "tags") = true.
Proof.
  intros Hs. split.
  - intros (m & H).
    apply normalize_inv in H as (slug & a & cl & tl & _ & Ha & Hc & Ht & _).
    split; [eapply author_ok_loadable, Ha|]. split.
    + destruct Hc as [(Hn & _) | (s & Hn & _)]; now rewrite Hn.
    + destruct Ht as [(Hn & _) | (s & Hn & _)]; now rewrite Hn.
  - intros (Ha & Hc & Ht).
    destruct (slug_source_ok_slug_ok fname d Hs) as (slug & Hslug).
    destruct (author_loadable_ok d Ha) as (a & Hau).
    assert (exists cl, category_ok d cl) as (cl & Hcl).
    { unfold category_ok. destruct (d !! "category") as [v|]; [|eauto].
      destruct v; try discriminate. eauto. }
    assert (exists tl, tags_ok d tl) as (tl & Htl).
    { unfold tags_ok. destruct (d !! "tags") as [v|]; [|eauto].
      destruct v; try discriminate. eauto. }
    eexists. now apply (normalize_ok h now fname d slug a cl tl).
Qed.

Lemma header_normalised_iff_witness :
  (exists m, Page.normalize Posix 0 "a.txt"
               (VDict (<["tags" := VStr "x"]> {["author" := VStr "A <b@c>"]})) = Return m)
  /\ ~ (exists m, Page.normalize Posix 0 "a.txt" (VDict {["tags" := VList []]}) = Return m).
Proof.
  assert (slug_source_ok (<["tags" := VStr "x"]> {["author" := VStr "A <b@c>"]}) = true)
    as H1 by (vm_compute; reflexivity).
  assert (slug_source_ok {["tags" := VList []]} = true) as H2 by (vm_compute; reflexivity).
  split.
  - apply (header_normalised_iff Posix 0 "a.txt" _ H1).
    repeat split; vm_compute; reflexivity.
  - intros H.
    apply (header_normalised_iff Posix 0 "a.txt" _ H2) in H.
    destruct H as (_ & _ & H). vm_compute in H. discriminate H.
Defined.

(* ===================================================================== *)
(** ** Loading a page *)
(* ===================================================================== *)

(** [find] returns the first occurrence: no occurrence starts earlier. *)
Lemma find_first (sep s a b : string) :
  Str.find sep s = Some (a, b) ->
  forall a' b', s = a' ++ sep ++ b' -> String.length a <= String.length a'.
Proof.
  revert a b. induction s as [|c s IH]; intros a b; rewrite find_eq.
  - destruct (String.prefix sep ""); [|discriminate].
    intros [= <- <-] a' b' _. simpl. lia.
  - destruct (String.prefix sep (String c s)) eqn:E.
    + intros [= <- <-] a' b' _. simpl. lia.
    + destruct (Str.find sep s) as [[a0 b0]|] eqn:Ef; [|discriminate].
      intros [= <- <-] a' b' Hs. destruct a' as [|c' a'].
      * rewrite app_Empty in Hs. rewrite Hs, app_prefix in E. discriminate.
      * rewrite app_String in Hs. injection Hs as -> Hs.
        specialize (IH a0 b0 eq_refl a' b' Hs). simpl. lia.
Qed.

Lemma build_meta_inv (depth : nat) (h : host) (now : Z) (self self' : Page) :
  Page.build_meta depth h now self = Return self' ->
  exists m0 md,
    meta self = Some m0
    /\ (m0 = VNone \/ exists d, m0 = VDict d)
    /\ Page.normalize h now (filename self) (if Py.is_none m0 then VDict ∅ else m0)
       = Return md
    /\ self' = set_meta md (if Py.is_none m0 then set_meta (VDict ∅) self else self).
Proof.
  intros H. destruct (meta self) as [m0|] eqn:Em.
  2:{ rewrite build_meta_unset in H by exact Em. discriminate. }
  unfold Page.build_meta, Page.self_meta in H. rewrite Em in H. simpl in H.
  exists m0. destruct (Py.is_none m0) eqn:En.
  - destruct m0; try discriminate. simpl in H.
    inv_bind H. exists a. repeat split; auto. congruence.
  - rewrite Em in H. simpl in H. inv_bind H. exists a.
    destruct (normalize_returns_dict _ _ _ _ _ Ha) as (d & ->).
    repeat split; eauto. congruence.
Qed.

(** X15: what a loaded page holds.  When [__init__] returns a page, the
    file has a [---]; the header handed to [yaml.load] is the text before
    its first occurrence and loads as a mapping or as [None]; the page's
    [original] is all the text after that occurrence, later [---]
    included; its [content] is the renderer's output for that text; its
    metadata is the normalised header; and [html] is not set. *)
Theorem load_success (depth : nat) (h : host) (now : Z)
    (yaml_load : string -> result value) (renderer : string -> result string)
    (file fpath : string) (opts : gmap string value) (p : Page) :
  Page.__init__ depth h now yaml_load renderer file fpath opts = Return p ->
  exists hdr body m0 md c,
    file = hdr ++ "---" ++ body
    /\ (forall a' b', file = a' ++ "---" ++ b' -> String.length hdr <= String.length a')
    /\ yaml_load hdr = Return m0
    /\ (m0 = VNone \/ exists d, m0 = VDict d)
    /\ filename p = snd (OsPath.split h fpath)
    /\ original p = body
    /\ Page.normalize h now (filename p) (if Py.is_none m0 then VDict ∅ else m0)
       = Return md
    /\ meta p = Some md
    /\ renderer body = Return c
    /\ content p = Some c
    /\ html p = None.
Proof.
  unfold Page.__init__, Str.split1. intros H.
  destruct (Str.find "---" file) as [[hdr body]|] eqn:Ef.
  2:{ simpl in H. rewrite build_meta_unset in H by reflexivity. discriminate. }
  simpl in H. inv_bind H. rename a into self0.
  inv_bind Ha. rename a into m0. injection Ha as <-.
  inv_bind H. rename a into self1. rename Ha into Hb.
  inv_bind H. inv_bind H. rename a0 into c. injection H as <-.
  apply build_meta_inv in Hb as (m0' & md & Em & Hm0 & Hn & ->).
  simpl in Em. injection Em as <-.
  exists hdr, body, m0, md, c.
  split; [now apply find_Some_occurs|].
  split; [now apply (find_first "---" file hdr body)|].
  split; [assumption|]. split; [assumption|].
  destruct (Py.is_none m0); simpl in *; repeat split; assumption.
Qed.

Lemma load_success_witness :
  exists p,
    Page.__init__ 1000 Posix 0 (fun _ => Return (VDict {["title" := VStr "Hi"]}))
      (fun s => Return s) "title: Hi---Hello---bye" "content/hi.txt" ∅ = Return p
    /\ filename p = "hi.txt"
    /\ original p = "Hello---bye"
    /\ content p = Some "Hello---bye".
Proof.
  eexists. split; [vm_compute; reflexivity|].
  match goal with
  | |- filename ?p = _ /\ _ =>
      assert (Page.__init__ 1000 Posix 0 (fun _ => Return (VDict {["title" := VStr "Hi"]}))
                (fun s => Return s) "title: Hi---Hello---bye" "content/hi.txt" ∅
              = Return p) as H by (vm_compute; reflexivity)
  end.
  destruct (load_success _ _ _ _ _ _ _ _ _ H)
    as (hdr & body & m0 & md & c & _ & _ & _ & _ & Hf & _).
  split; [exact Hf|]. split; reflexivity.
Defined.

(* ===================================================================== *)
(** ** The template of a page *)
(* ===================================================================== *)

(** The template that [render] asks for, by the [type] of the metadata. *)
Lemma render_by_type (depth : nat)
    (get_template : string -> result (gmap string tvalue -> result string))
    (self : Page) (tv : option (gmap string tvalue)) (d : gmap string value) :
  meta self = Some (VDict d) ->
  Page.render depth get_template self tv
  = match d !! "type" with
    | Some (VStr ty) =>
        t <- get_template (ty ++ ".html");;
        x <- t (Page.template_vars self tv);;
        Return (set_html x self)
    | Some _ => Raise TypeError
    | None =>
        t <- get_template "default.html";;
        x <- t (Page.template_vars self tv);;
        Return (set_html x self)
    end.
Proof.
  intros Hm. unfold Page.render, Page.self_meta. rewrite Hm. simpl.
  destruct (d !! "type") as [v|]; [|reflexivity].
  destruct v; reflexivity.
Qed.

Lemma init_meta (depth : nat) (h : host) (now : Z)
    (yaml_load : string -> result value) (renderer : string -> result string)
    (file fpath : string) (opts : gmap string value) (p : Page) :
  Page.__init__ depth h now yaml_load renderer file fpath opts = Return p ->
  exists hdr body m0 md,
    Str.find "---" file = Some (hdr, body)
    /\ yaml_load hdr = Return m0
    /\ (m0 = VNone \/ exists d, m0 = VDict d)
    /\ Page.normalize h now (filename p) (if Py.is_none m0 then VDict ∅ else m0)
       = Return md
    /\ meta p = Some md.
Proof.
  unfold Page.__init__, Str.split1. intros H.
  destruct (Str.find "---" file) as [[hdr body]|] eqn:Ef.
  2:{ simpl in H. rewrite build_meta_unset in H by reflexivity. discriminate. }
  simpl in H. inv_bind H. rename a into self0.
  inv_bind Ha. rename a into m0. injection Ha as <-.
  inv_bind H. rename a into self1. rename Ha into Hb.
  inv_bind H. inv_bind H. rename a0 into c. injection H as <-.
  apply build_meta_inv in Hb as (m0' & md & Em & Hm0 & Hn & ->).
  simpl in Em. injection Em as <-.
  exists hdr, body, m0, md.
  destruct (Py.is_none m0); simpl in *; repeat split; assumption.
Qed.

(** X16: the template of a loaded page is decided by the header.  For a
    page that [__init__] returned, [render] asks for the template named
    after the header's [type] with [.html] appended, for [default.html]
    when the header has no [type], and raises [TypeError] when the type is
    not a string: normalisation leaves the key as the header has it.  What
    [get_template] or the template raises, [render] raises; otherwise the
    result is the page with the template's output as its [html] and every
    other field as it was. *)
Theorem loaded_page_template (depth : nat) (h : host) (now : Z)
    (yaml_load : string -> result value) (renderer : string -> result string)
    (file fpath : string) (opts : gmap string value) (p : Page) :
  Page.__init__ depth h now yaml_load renderer file fpath opts = Return p ->
  exists hdr body m0,
    Str.split1 "---" file = [hdr; body]
    /\ yaml_load hdr = Return m0
    /\ forall depth' get_template tv,
         exists tname,
           tname = match match m0 with VDict d => d !! "type" | _ => None end with
                   | Some (VStr ty) => Return (ty ++ ".html")
                   | Some _ => Raise TypeError
                   | None => Return "default.html"
                   end
           /\ Page.render depth' get_template p tv
              = match tname with
                | Raise e => Raise e
                | Return n =>
                    match get_template n with
                    | Raise e => Raise e
                    | Return t =>
                        match t (Page.template_vars p tv) with
                        | Raise e => Raise e
                        | Return x =>
                            Return (mkPage (path p) (filename p) (options p)
                                      (original p) (meta p) (content p) (Some x))
                        end
                    end
                end.
Proof.
  intros H.
  apply init_meta in H as (hdr & body & m0 & md & Ef & Hy & Hm0 & Hn & Hm).
  exists hdr, body, m0. split; [unfold Str.split1; now rewrite Ef|].
  split; [exact Hy|]. intros depth' get_template tv.
  eexists. split; [reflexivity|].
  destruct Hm0 as [-> | (d & ->)]; simpl in Hn;
    apply normalize_inv in Hn as (slug & a & cl & tl & _ & _ & _ & _ & ->);
    rewrite (render_by_type depth' get_template p tv _ Hm);
    rewrite final_other by discriminate.
  - rewrite lookup_empty. reflexivity.
  - destruct (d !! "type") as [v|]; [|reflexivity].
    destruct v; reflexivity.
Qed.

Lemma loaded_page_template_witness :
  exists p,
    Page.__init__ 1000 Posix 0 (fun _ => Return (VDict {["type" := VStr "post"]}))
      (fun s => Return s) "type: post---Hello" "hi.txt" ∅ = Return p
    /\ Page.render 1000
         (fun n => if String.eqb n "post.html" then Return (fun _ => Return "<p>post</p>")
                   else Raise TemplateNotFound) p None
       = Return (set_html "<p>post</p>" p).
Proof.
  eexists. split; [vm_compute; reflexivity|].
  match goal with
  | |- Page.render _ _ ?p _ = _ =>
      assert (Page.__init__ 1000 Posix 0 (fun _ => Return (VDict {["type" := VStr "post"]}))
                (fun s => Return s) "type: post---Hello" "hi.txt" ∅ = Return p) as H
        by (vm_compute; reflexivity)
  end.
  destruct (loaded_page_template _ _ _ _ _ _ _ _ _ H) as (hdr & body & m0 & _ & Hy & Hr).
  injection Hy as <-.
  destruct (Hr 1000
              (fun n => if String.eqb n "post.html"
                        then Return (fun _ : gmap string tvalue => Return "<p>post</p>")
                        else Raise TemplateNotFound) None) as (tname & -> & ->).
  reflexivity.
Defined.

(* ===================================================================== *)
(** ** Writing a page *)
(* ===================================================================== *)






(* ===================================================================== *)
(** ** Authors that the pattern matches *)
(* ===================================================================== *)

Lemma star_stop {R} (c : Re.cls) (s : string) (k : string -> option R) :
  k s <> None -> Re.star c s k <> None.
Proof.
  intros H. destruct s as [|a r]; simpl; [exact H|].
  destruct (Re.cls_match c a); [|exact H].
  destruct (Re.star c r k); [discriminate|exact H].
Qed.

(** A greedy repetition succeeds when the continuation succeeds after some
    run of characters of the class. *)
Lemma star_complete {R} (c : Re.cls) (k : string -> option R) (pre rest : string) :
  Forall (fun a => Re.cls_match c a = true) (list_ascii_of_string pre) ->
  k rest <> None -> Re.star c (pre ++ rest) k <> None.
Proof.
  intros Hpre Hk. induction pre as [|a pre IH].
  - rewrite app_Empty. now apply star_stop.
  - rewrite app_String. simpl in *. inversion Hpre as [|? ? Ha Hpre']; subst.
    rewrite Ha. destruct (Re.star c (pre ++ rest) k) eqn:E; [discriminate|].
    now apply IH in Hpre'.
Qed.

Lemma chars_without (x : ascii) (s : string) :
  ~ occurs (String x "") s -> Forall (fun a => a <> x) (list_ascii_of_string s).
Proof.
  induction s as [|c s IH]; intros H; simpl; [constructor|].
  apply not_occurs_char_cons in H as [Hc Hs]. constructor; auto.
Qed.

Lemma author_regex_matches (aname user dom : string) :
  ~ occurs "<" aname -> ~ occurs ">" aname ->
  ~ occurs (String Re.newline "") user -> ~ occurs (String Re.newline "") dom ->
  Re.match_ Page.Author.parse_author_regex
    (aname ++ " <" ++ user ++ "@" ++ dom ++ ">") <> None.
Proof.
  intros Hlt Hgt Hu Hd.
  unfold Re.match_, Page.Author.parse_author_regex. cbn [Re.run].
  apply star_complete.
  { apply chars_without in Hlt, Hgt. revert Hlt Hgt.
    induction (list_ascii_of_string aname) as [|a l IH]; intros H1 H2; constructor.
    - inversion H1; inversion H2; subst. simpl.
      destruct (Ascii.eqb_spec a "<"); [contradiction|].
      destruct (Ascii.eqb_spec a ">"); [contradiction|]. reflexivity.
    - inversion H1; inversion H2; subst. auto. }
  change (" <" ++ user ++ "@" ++ dom ++ ">")
    with (String " "%char (String "<"%char (user ++ String "@"%char (dom ++ ">")))).
  cbn [Re.cls_match]. rewrite Ascii.eqb_refl.
  apply star_stop. rewrite Ascii.eqb_refl.
  apply star_complete.
  { apply chars_without in Hu. induction Hu as [|a l Ha Hl IH]; constructor; [|exact IH].
    simpl. now destruct (Ascii.eqb_spec a Re.newline). }
  rewrite Ascii.eqb_refl.
  apply star_complete.
  { apply chars_without in Hd. induction Hd as [|a l Ha Hl IH]; constructor; [|exact IH].
    simpl. now destruct (Ascii.eqb_spec a Re.newline). }
  simpl. discriminate.
Qed.

(** X19: an author written [name <user@host>] is accepted.  When the name
    has no angle bracket and neither side of the [@] has a newline,
    [parse] does not raise; what it returns is [None], not the author. *)
Theorem author_parse_well_formed (aname user dom : string) :
  ~ occurs "<" aname -> ~ occurs ">" aname ->
  ~ occurs (String Re.newline "") user -> ~ occurs (String Re.newline "") dom ->
  Page.Author.parse (VStr (aname ++ " <" ++ user ++ "@" ++ dom ++ ">")) = Return VNone.
Proof.
  intros Hlt Hgt Hu Hd.
  pose proof (author_regex_matches aname user dom Hlt Hgt Hu Hd) as H.
  unfold Page.Author.parse, Page.Author.parse_local.
  destruct (Re.match_ Page.Author.parse_author_regex _) as [caps|]; [|congruence].
  destruct (Re.groups3 caps) as [[g1 g2] g3]. reflexivity.
Qed.

Lemma author_parse_well_formed_witness :
  Page.Author.parse (VStr "Jane Doe <jane@example.com>") = Return VNone.
Proof.
  apply (author_parse_well_formed "Jane Doe" "jane" "example.com");
    apply find_None_iff; reflexivity.
Defined.
